(** * Azenta gene-list and peak-count scripts: a shallow embedding

    Two scripts of the repository carry the logic verified here:
    - [5_filter_high_expression_genes.py]: the annotation parser
      [get_all_genes_from_gtf] and the set algebra that classifies genes
      into targets and non-targets under a [baseMean] threshold;
    - [scripts/count_reads_in_peaks.py]: [count_reads], which drives
      samtools and bedtools through the shell, normalises the raw counts to
      reads per million and logs two quality warnings.

    Python values are modelled as follows: [str] as [string] (characters are
    code points below 256, GENCODE annotation being ASCII), [set] as [gset],
    [dict] as [gmap], a pandas column as a [list], [int] and the [int64]
    dtype as [Z], [float] and the [float64] dtype as IEEE-754 binary64
    ([spec_float] with 53 bits of precision, rounding to nearest even), and
    a raised exception as the [Raise] result. The external programs and the
    file system are a record of outcomes and a pair of sets of paths. *)

From Stdlib Require Import ZArith QArith Qpower Qabs Qfield Lia Lqa Ascii String.
From Stdlib Require Import Floats.SpecFloat.
From stdpp Require Import base option list sets gmap strings.

Local Open Scope string_scope.
Local Open Scope list_scope.

(** ** Python: exceptions and [str] methods *)

Module Py.

Inductive exn : Type :=
| IndexError
| ValueError
| OSError
| CalledProcessError
| EmptyDataError.

Inductive result (A : Type) : Type :=
| Return (a : A)
| Raise (e : exn).
Arguments Return {A} a.
Arguments Raise {A} e.

Definition bind {A B} (r : result A) (k : A -> result B) : result B :=
  match r with
  | Return a => k a
  | Raise e => Raise e
  end.

(** The call ends with a value, not an exception. *)
Definition returns {A} (r : result A) : Prop := exists a, r = Return a.

(** [l[i]] on a list: [IndexError] out of range. *)
Definition getitem {A} (l : list A) (i : nat) : result A :=
  match l !! i with
  | Some a => Return a
  | None => Raise IndexError
  end.

(** [a, b = l]: [ValueError] unless [l] has exactly two items. *)
Definition unpack2 {A} (l : list A) : result (A * A) :=
  match l with
  | [a; b] => Return (a, b)
  | _ => Raise ValueError
  end.

(** [for x in xs: body], where [body] may raise: the loop stops at the
    first exception. *)
Fixpoint for_each {A S} (body : S -> A -> result S) (s : S) (xs : list A)
  : result S :=
  match xs with
  | [] => Return s
  | x :: xs' => bind (body s x) (fun s' => for_each body s' xs')
  end.

Definition ord (c : ascii) : N := N_of_ascii c.

(** [c.isspace()] for a code point below 256: the characters that
    [str.strip()] removes. *)
Definition isspace (c : ascii) : bool :=
  let n := ord c in
  ((9 <=? n) && (n <=? 13) || (28 <=? n) && (n <=? 32)
   || (n =? 133) || (n =? 160))%N.

Fixpoint lstrip_by (p : ascii -> bool) (s : string) : string :=
  match s with
  | String c s' => if p c then lstrip_by p s' else s
  | EmptyString => EmptyString
  end.

Fixpoint rstrip_by (p : ascii -> bool) (s : string) : string :=
  match s with
  | String c s' =>
      match rstrip_by p s' with
      | EmptyString => if p c then EmptyString else String c EmptyString
      | r => String c r
      end
  | EmptyString => EmptyString
  end.

(** [s.strip()] *)
Definition strip (s : string) : string :=
  rstrip_by isspace (lstrip_by isspace s).

Fixpoint mem_char (c : ascii) (chars : string) : bool :=
  match chars with
  | String d r => if Ascii.eqb c d then true else mem_char c r
  | EmptyString => false
  end.

(** [s.strip(chars)] *)
Definition strip_chars (chars s : string) : string :=
  rstrip_by (fun c => mem_char c chars) (lstrip_by (fun c => mem_char c chars) s).

(** [s.startswith(p)] *)
Fixpoint startswith (p s : string) : bool :=
  match p, s with
  | EmptyString, _ => true
  | String a p', String b s' => Ascii.eqb a b && startswith p' s'
  | String _ _, EmptyString => false
  end.

(** [s.split(sep, maxsplit)] for a non-empty [sep]: scan from the left,
    cut at each occurrence of [sep], at most [maxsplit] times ([None] is
    the default, no limit). [skip] counts the characters of a separator
    just matched that are still to be passed over, [cur] is the piece
    being read. *)
Fixpoint split_go (sep : string) (maxsplit : option nat) (skip : nat)
  (cur : string) (s : string) : list string :=
  match s with
  | EmptyString => [cur]
  | String c s' =>
      match skip with
      | S k => split_go sep maxsplit k cur s'
      | O =>
          match maxsplit with
          | Some O => [cur +:+ s]
          | _ =>
              if startswith sep s
              then cur :: split_go sep (pred <$> maxsplit)
                            (pred (String.length sep)) EmptyString s'
              else split_go sep maxsplit O (cur +:+ String c EmptyString) s'
          end
      end
  end.

Definition split (sep : string) (maxsplit : option nat) (s : string)
  : list string :=
  split_go sep maxsplit O EmptyString s.

End Py.

Import Py.

Notation "x <- r ;; k" := (Py.bind r (fun x => k))
  (at level 100, r at next level, right associativity, only parsing).

(** Characters that cannot be written inside a string literal. *)
Definition tab : string := String "009"%char EmptyString.
Definition newline : string := String "010"%char EmptyString.
Definition dquote : string := String "034"%char EmptyString.

(** ** IEEE-754 binary64: Python's [float], numpy's [float64] *)

Module Float64.

Definition prec : Z := 53.
Definition emax : Z := 1024.

Definition float : Type := spec_float.

(** Conversion of an integer, rounding to nearest even. *)
Definition of_int (z : Z) : float := binary_normalize prec emax z 0 false.

Definition mul (x y : float) : float := SFmul prec emax x y.
Definition div (x y : float) : float := SFdiv prec emax x y.

(** [x < y]; Python's [x > y] is [ltb y x]. Any comparison with NaN is
    false. *)
Definition ltb (x y : float) : bool := SFltb x y.
Definition gtb (x y : float) : bool := ltb y x.

Definition pinf : float := S754_infinity false.
Definition ninf : float := S754_infinity true.
Definition nan : float := S754_nan.

(** The literals [1e6] and [0.5]. *)
Definition f1e6 : float := S754_finite false 8589934592000000 (-33).
Definition f0_5 : float := S754_finite false 4503599627370496 (-53).

(** The rational number that a zero or a finite value denotes. *)
Definition to_Q (x : float) : option Q :=
  match x with
  | S754_zero _ => Some 0%Q
  | S754_finite s m e =>
      Some ((if s then -1 else 1) * inject_Z (Zpos m) * 2 ^ e)%Q
  | _ => None
  end.

(** The record [mrs] of a right shift locates the rational [N / D]: its
    mantissa is the integer part, and the round and sticky bits tell on
    which side of the midpoint the fraction lies. *)
Definition located (mrs : shr_record) (N D : Z) : Prop :=
  (0 <= shr_m mrs /\ 0 < D /\
   match shr_r mrs, shr_s mrs with
   | false, false => N = shr_m mrs * D
   | false, true => shr_m mrs * D < N /\ 2 * N < (2 * shr_m mrs + 1) * D
   | true, false => 2 * N = (2 * shr_m mrs + 1) * D
   | true, true => (2 * shr_m mrs + 1) * D < 2 * N /\ N < (shr_m mrs + 1) * D
   end)%Z.

(** An infinity, or a finite value with a full 53-digit mantissa and an
    exponent of at least [lo], of sign [s]. *)
Definition nonzero (s : bool) (lo : Z) (x : float) : Prop :=
  x = S754_infinity s
  \/ exists m e, x = S754_finite s m e /\ Zdigits2 (Zpos m) = 53%Z /\ (lo <= e)%Z.

End Float64.

(** ** [5_filter_high_expression_genes.py] *)

Module FilterGenes.

Definition valid_gene_types : gset string := {[ "protein_coding" ]}.

(** The body of [for attr in fields[8].split(';')]: a blank segment is
    passed over; otherwise the segment is cut at the first space
    followed by a double quote and the pair unpacked, and the
    [ValueError] of a failed unpacking is caught by
    [except ValueError: continue]. *)
Definition parse_pair (attr_dict : gmap string string) (attr : string)
  : result (gmap string string) :=
  kv <- unpack2 (split (" " +:+ dquote) (Some 1%nat) (strip attr));;
  Return (<[ strip kv.1 := strip_chars dquote kv.2 ]> attr_dict).

Definition parse_attr (attr_dict : gmap string string) (attr : string)
  : result (gmap string string) :=
  if decide (strip attr = EmptyString) then Return attr_dict
  else
    match parse_pair attr_dict attr with
    | Raise ValueError => Return attr_dict
    | r => r
    end.

(** The body of [for line in f]. *)
Definition process_line (genes : gset string) (line : string)
  : result (gset string) :=
  if startswith "#" line then Return genes
  else
    let fields := split tab None (strip line) in
    feature <- getitem fields 2;;
    if decide (feature = "gene") then
      attributes <- getitem fields 8;;
      attr_dict <- for_each parse_attr ∅ (split ";" None attributes);;
      let gene_type := default EmptyString (attr_dict !! "gene_type") in
      let gene_name := default EmptyString (attr_dict !! "gene_name") in
      if decide (gene_type ∈ valid_gene_types ∧ gene_name ≠ EmptyString)
      then Return ({[ gene_name ]} ∪ genes)
      else Return genes
    else Return genes.

(** [get_all_genes_from_gtf], on the lines that the decompressed text
    stream yields. *)
Definition get_all_genes_from_gtf (lines : list string)
  : result (gset string) :=
  for_each process_line ∅ lines.

(** A row of [DEA_NSC.csv]: the [gene] and [baseMean] columns. *)
Record dea_row := { gene : string; baseMean : Float64.float }.

(** [set(dea[dea['baseMean'] > threshold]['gene'])] *)
Definition high_expression (dea : list dea_row) (threshold : Float64.float)
  : gset string :=
  list_to_set
    (gene <$> filter (fun r => Float64.gtb (baseMean r) threshold = true) dea).

(** [targets[targets['Gene'].isin(genes)]]: the rows are kept in order. *)
Definition isin_filter (targets : list string) (genes : gset string)
  : list string :=
  filter (fun g => g ∈ genes) targets.

(** The sets and lists the script computes and writes out. *)
Record classification := {
  all_genes : gset string;
  all_targets : gset string;
  all_no_targets_mm10 : gset string;
  all_no_targets : gset string;
  high_expression_genes : gset string;
  high_expression_no_targets : gset string;
  filtered_targets1 : list string;
  filtered_targets2 : list string
}.

Definition classify (all_mm10_genes : gset string) (dea : list dea_row)
  (targets1 targets2 : list string) (threshold : Float64.float)
  : classification :=
  let all_genes := list_to_set (gene <$> dea) in
  let all_targets := list_to_set targets2 in
  let all_no_targets_mm10 := all_mm10_genes ∖ all_targets in
  let all_no_targets := all_genes ∖ all_targets in
  let high_expression_genes := high_expression dea threshold in
  let high_expression_no_targets := high_expression_genes ∖ all_targets in
  {| all_genes := all_genes;
     all_targets := all_targets;
     all_no_targets_mm10 := all_no_targets_mm10;
     all_no_targets := all_no_targets;
     high_expression_genes := high_expression_genes;
     high_expression_no_targets := high_expression_no_targets;
     filtered_targets1 := isin_filter targets1 high_expression_genes;
     filtered_targets2 := isin_filter targets2 high_expression_genes |}.

(** The script from the annotation lines on: the annotation is parsed
    first, and an exception there ends the run. *)
Definition run (gtf_lines : list string) (dea : list dea_row)
  (targets1 targets2 : list string) (threshold : Float64.float)
  : result classification :=
  all_mm10_genes <- get_all_genes_from_gtf gtf_lines;;
  Return (classify all_mm10_genes dea targets1 targets2 threshold).

End FilterGenes.


(** ** [os] and [os.path] on POSIX, over a file system of two sets *)

Module Os.

Record fs := { files : gset string; dirs : gset string }.

Definition slash : ascii := "/"%char.

(** [(p[:i], p[i:])] for [i = p.rfind('/') + 1]. *)
Fixpoint rpartition_slash (p : string) : string * string :=
  match p with
  | EmptyString => (EmptyString, EmptyString)
  | String c p' =>
      match rpartition_slash p' with
      | (EmptyString, _) =>
          if Ascii.eqb c slash then (String c EmptyString, p')
          else (EmptyString, p)
      | (head, tail) => (String c head, tail)
      end
  end.

Fixpoint all_slashes (s : string) : bool :=
  match s with
  | EmptyString => true
  | String c s' => Ascii.eqb c slash && all_slashes s'
  end.

(** [os.path.dirname] *)
Definition dirname (p : string) : string :=
  let head := (rpartition_slash p).1 in
  if all_slashes head then head
  else rstrip_by (fun c => Ascii.eqb c slash) head.

(** [os.path.basename] *)
Definition basename (p : string) : string := (rpartition_slash p).2.

Fixpoint endswith_slash (s : string) : bool :=
  match s with
  | EmptyString => false
  | String c EmptyString => Ascii.eqb c slash
  | String _ s' => endswith_slash s'
  end.

(** [os.path.join(a, b)] *)
Definition join (a b : string) : string :=
  if startswith "/" b then b
  else if decide (a = EmptyString) then b
  else if endswith_slash a then a +:+ b
  else a +:+ "/" +:+ b.

(** [os.path.exists] *)
Definition exists_ (w : fs) (p : string) : bool :=
  bool_decide (p ∈ files w ∪ dirs w).

(** [os.makedirs(d, exist_ok=True)]: fails on the empty path and when
    [d] is a regular file. The ancestors created on the way are not
    recorded: no operation of [count_reads] looks at them. *)
Definition makedirs (w : fs) (d : string) : result fs :=
  if decide (d = EmptyString ∨ d ∈ files w) then Raise OSError
  else Return {| files := files w; dirs := {[ d ]} ∪ dirs w |}.

(** [os.remove(p)]: [p] must be a regular file. *)
Definition remove (w : fs) (p : string) : result fs :=
  if decide (p ∈ files w)
  then Return {| files := files w ∖ {[ p ]}; dirs := dirs w |}
  else Raise OSError.

(** [os.rmdir(d)]: [d] must be a directory with no entry in it. *)
Definition rmdir (w : fs) (d : string) : result fs :=
  if decide (d ∈ dirs w ∧ set_Forall (fun p => dirname p ≠ d) (files w ∪ dirs w))
  then Return {| files := files w; dirs := dirs w ∖ {[ d ]} |}
  else Raise OSError.

End Os.

(** ** [scripts/count_reads_in_peaks.py] *)

Module CountReads.

Import Os.

(** A row of the table that [bedtools coverage -counts] writes and
    [pd.read_csv] reads back under the names
    [chr, start, end, gene, raw_count]. *)
Record raw_row := {
  chr : string; start : Z; end_ : Z; gene : string; raw_count : Z
}.

(** The same row with the [count] column added. *)
Record norm_row := { raw : raw_row; count : Float64.float }.

Inductive level := INFO | WARNING.

(** The log records, by format string; the means formatted into two of
    them are not modelled. *)
Inductive message :=
| CalculatingTotalMappedReads
| TotalMappedReads (n : Z)
| CreatingGenomeFile
| SortingBedFile
| CountingReadsInPeaks
| NormalizedCountsSaved (output_file : string)
| MeanRawCount
| MeanNormalizedCount
| MoreThanHalfZero (zero_peaks : Z) (total : Z)
| LowMappedReads (n : Z).

(** What the function can see and change: the file system, the tables
    written by [to_csv], the records logged so far (oldest first). *)
Record world := {
  disk : fs;
  tables : gmap string (list norm_row);
  log : list (level * message)
}.

(** How a shell command of the form [tool ... > target] ends: the shell
    creates [target] before it starts the tool, unless the redirection
    itself fails. *)
Inductive shell_outcome :=
| RedirectFailed
| Exited (status : Z).

(** The outcomes of the external programs and of the two pandas I/O
    calls, which the function does not control. *)
Record env := {
  samtools_count : result Z;        (* int(check_output(samtools view -c)) *)
  genome_outcome : shell_outcome;   (* samtools view -H | grep | sed | sed *)
  sort_outcome : shell_outcome;     (* bedtools sort *)
  coverage_outcome : shell_outcome; (* bedtools coverage *)
  counts_table : result (list raw_row); (* pd.read_csv(counts_tmp) *)
  to_csv_error : option exn         (* df.to_csv(output_file) *)
}.

(** State and exception monad of the function body. *)
Definition M (A : Type) : Type := world -> world * result A.

Definition ret {A} (a : A) : M A := fun w => (w, Return a).
Definition mbind {A B} (m : M A) (k : A -> M B) : M B :=
  fun w => match m w with
           | (w', Return a) => k a w'
           | (w', Raise e) => (w', Raise e)
           end.

(** [try: body finally: cleanup]: the cleanup runs on every outcome of
    the body, and an exception of the cleanup replaces that outcome. *)
Definition try_finally {A} (body : M A) (cleanup : M unit) : M A :=
  fun w => match body w with
           | (w', r) =>
               match cleanup w' with
               | (w'', Return _) => (w'', r)
               | (w'', Raise e) => (w'', Raise e)
               end
           end.

(** [try: m except: pass] *)
Definition try_pass (m : M unit) : M unit :=
  fun w => match m w with
           | (w', _) => (w', Return tt)
           end.

Definition lift_fs (op : fs -> result fs) : M unit :=
  fun w => match op (disk w) with
           | Return d => ({| disk := d; tables := tables w; log := log w |}, Return tt)
           | Raise e => (w, Raise e)
           end.

Definition logger (l : level) (msg : message) : M unit :=
  fun w => ({| disk := disk w; tables := tables w; log := log w ++ [(l, msg)] |},
            Return tt).

Definition lift_result {A} (r : result A) : M A := fun w => (w, r).

(** [subprocess.run(tool > target, shell=True, check=True)] *)
Definition run_redirect (o : shell_outcome) (target : string) : M unit :=
  fun w =>
    match o with
    | RedirectFailed => (w, Raise CalledProcessError)
    | Exited status =>
        if decide (target ∈ dirs (disk w)) then (w, Raise CalledProcessError)
        else
          let w' := {| disk := {| files := {[ target ]} ∪ files (disk w);
                                  dirs := dirs (disk w) |};
                       tables := tables w; log := log w |} in
          (w', if decide (status = 0%Z) then Return tt
               else Raise CalledProcessError)
    end.

(** [pd.read_csv(path, ...)] *)
Definition read_csv (E : env) (path : string) : M (list raw_row) :=
  fun w => if decide (path ∈ files (disk w)) then (w, counts_table E)
           else (w, Raise OSError).

(** [df.to_csv(path, sep='\t', index=False)] *)
Definition to_csv (E : env) (df : list norm_row) (path : string) : M unit :=
  fun w =>
    match to_csv_error E with
    | Some e => (w, Raise e)
    | None =>
        ({| disk := {| files := {[ path ]} ∪ files (disk w);
                       dirs := dirs (disk w) |};
            tables := <[ path := df ]> (tables w); log := log w |},
         Return tt)
    end.

Notation "x <-- m ;;; k" := (mbind m (fun x => k))
  (at level 100, m at next level, right associativity, only parsing).
Notation "m ;;; k" := (mbind m (fun _ => k))
  (at level 100, right associativity, only parsing).

(** [df['raw_count'] * 1e6 / total_reads], one row: the [int64] count
    becomes a [float64] in the product, the Python [int] in the
    quotient. pandas divides under IEEE-754 rules and raises nothing. *)
Definition rpm (raw_count total_reads : Z) : Float64.float :=
  Float64.div (Float64.mul (Float64.of_int raw_count) Float64.f1e6)
              (Float64.of_int total_reads).

Definition normalize (df : list raw_row) (total_reads : Z) : list norm_row :=
  (fun r => {| raw := r; count := rpm (raw_count r) total_reads |}) <$> df.

(** [(df['raw_count'] == 0).sum()] *)
Definition zero_peaks (df : list raw_row) : Z :=
  Z.of_nat (length (filter (fun r => raw_count r = 0%Z) df)).

(** [zero_peaks > len(df) * 0.5] *)
Definition too_many_zero (df : list raw_row) : bool :=
  Float64.gtb (Float64.of_int (zero_peaks df))
              (Float64.mul (Float64.of_int (Z.of_nat (length df))) Float64.f0_5).

Record paths := {
  temp_dir : string;
  genome_file : string;
  sorted_peaks : string;
  counts_tmp : string
}.

Definition temp_paths (output_file : string) : paths :=
  let output_dir := dirname output_file in
  let temp_dir := join output_dir "tmp" in
  let temp_prefix := join temp_dir (basename output_file) in
  {| temp_dir := temp_dir;
     genome_file := temp_prefix +:+ ".genome";
     sorted_peaks := temp_prefix +:+ ".sorted.tmp";
     counts_tmp := temp_prefix +:+ ".counts.tmp" |}.

(** The quality control checks at the end of the [try] block. *)
Definition quality_control (df : list raw_row) (total_reads : Z) : M unit :=
  (if too_many_zero df
   then logger WARNING (MoreThanHalfZero (zero_peaks df) (Z.of_nat (length df)))
   else ret tt) ;;;
  (if (total_reads <? 1000000)%Z
   then logger WARNING (LowMappedReads total_reads)
   else ret tt).

(** The records that these checks add to the log. *)
Definition qc_records (df : list raw_row) (total_reads : Z)
  : list (level * message) :=
  (if too_many_zero df
   then [(WARNING, MoreThanHalfZero (zero_peaks df) (Z.of_nat (length df)))]
   else [])
  ++ (if (total_reads <? 1000000)%Z
      then [(WARNING, LowMappedReads total_reads)] else []).

(** The body of the [try] block. *)
Definition try_body (E : env) (output_file : string) (P : paths)
  (total_reads : Z) : M unit :=
  logger INFO CountingReadsInPeaks ;;;
  run_redirect (coverage_outcome E) (counts_tmp P) ;;;
  df <-- read_csv E (counts_tmp P) ;;;
  let df' := normalize df total_reads in
  to_csv E df' output_file ;;;
  logger INFO (NormalizedCountsSaved output_file) ;;;
  logger INFO MeanRawCount ;;;
  logger INFO MeanNormalizedCount ;;;
  quality_control df total_reads.

(** The body of the loop
    [for tmp_file in [counts_tmp, genome_file, sorted_peaks]]. *)
Definition remove_if_exists (tmp_file : string) : M unit :=
  fun w => if exists_ (disk w) tmp_file
           then lift_fs (fun d => remove d tmp_file) w
           else (w, Return tt).

(** The [finally] block. *)
Definition cleanup (P : paths) : M unit :=
  remove_if_exists (counts_tmp P) ;;;
  remove_if_exists (genome_file P) ;;;
  remove_if_exists (sorted_peaks P) ;;;
  try_pass (lift_fs (fun d => rmdir d (temp_dir P))).

(** [count_reads(peaks_file, bam_file, output_file, sample_name)]: the
    input files act only through the outcomes in [E]. *)
Definition count_reads (E : env) (output_file : string) : M unit :=
  let output_dir := dirname output_file in
  let P := temp_paths output_file in
  lift_fs (fun d => makedirs d output_dir) ;;;
  lift_fs (fun d => makedirs d (temp_dir P)) ;;;
  logger INFO CalculatingTotalMappedReads ;;;
  total_reads <-- lift_result (samtools_count E) ;;;
  logger INFO (TotalMappedReads total_reads) ;;;
  logger INFO CreatingGenomeFile ;;;
  run_redirect (genome_outcome E) (genome_file P) ;;;
  logger INFO SortingBedFile ;;;
  run_redirect (sort_outcome E) (sorted_peaks P) ;;;
  try_finally (try_body E output_file P total_reads) (cleanup P).

End CountReads.

(** ** Data of the scenarios in the statements below *)

Module Examples.

(** A line of three fields; a line of nine fields whose ninth is a
    single space; a well-formed gene line. *)
Definition short_line : string :=
  "chr1" +:+ tab +:+ "HAVANA" +:+ tab +:+ "gene" +:+ newline.

Definition blank_attributes_line : string :=
  "chr1" +:+ tab +:+ "HAVANA" +:+ tab +:+ "gene" +:+ tab +:+ "1" +:+ tab
  +:+ "2" +:+ tab +:+ "." +:+ tab +:+ "+" +:+ tab +:+ "." +:+ tab +:+ " "
  +:+ newline.

Definition gene_line (gene_type gene_name : string) : string :=
  "chr1" +:+ tab +:+ "HAVANA" +:+ tab +:+ "gene" +:+ tab +:+ "1" +:+ tab
  +:+ "2" +:+ tab +:+ "." +:+ tab +:+ "+" +:+ tab +:+ "." +:+ tab
  +:+ "gene_id " +:+ dquote +:+ "ENSMUSG1" +:+ dquote
  +:+ "; gene_type " +:+ dquote +:+ gene_type +:+ dquote
  +:+ "; gene_name " +:+ dquote +:+ gene_name +:+ dquote
  +:+ "; level 2; havana_gene" +:+ newline.

(** A run directory with nothing in it, the peak of the
    specification's third scenario, and a peak without reads. *)
Definition empty_world : CountReads.world :=
  {| CountReads.disk := {| Os.files := ∅; Os.dirs := ∅ |};
     CountReads.tables := ∅;
     CountReads.log := [] |}.

Definition peak1 : CountReads.raw_row :=
  {| CountReads.chr := "chr1"; CountReads.start := 0; CountReads.end_ := 100;
     CountReads.gene := "p1"; CountReads.raw_count := 10 |}.

Definition peak0 : CountReads.raw_row :=
  {| CountReads.chr := "chr1"; CountReads.start := 200; CountReads.end_ := 300;
     CountReads.gene := "p0"; CountReads.raw_count := 0 |}.

(** The tools all succeed and report [total_reads] mapped reads and
    the table [df]; [sort_status] is the exit status of the sort. *)
Definition tools (total_reads : Z) (sort_status : Z)
  (df : list CountReads.raw_row) : CountReads.env :=
  {| CountReads.samtools_count := Return total_reads;
     CountReads.genome_outcome := CountReads.Exited 0;
     CountReads.sort_outcome := CountReads.Exited sort_status;
     CountReads.coverage_outcome := CountReads.Exited 0;
     CountReads.counts_table := Return df;
     CountReads.to_csv_error := None |}.

End Examples.

(** * Properties *)

(** ** Binary64: order, rounding and values *)

Module Float64Facts.

Import Float64.
Local Open Scope Z_scope.

Lemma ltb_trans (x y z : float) :
  ltb x y = true -> ltb y z = true -> ltb x z = true.
Proof.
  unfold ltb, SFltb.
  destruct x as [sx|sx| |sx mx ex], y as [sy|sy| |sy my ey],
    z as [sz|sz| |sz mz ez]; simpl; try discriminate; try reflexivity;
    repeat match goal with b : bool |- _ => destruct b end;
    simpl; try discriminate; try reflexivity.
  all: destruct (Z.compare_spec ex ey), (Z.compare_spec ey ez),
         (Z.compare_spec ex ez);
    try discriminate; try reflexivity; try lia; subst.
  all: rewrite ?Pos.compare_cont_spec; simpl; unfold Pos.switch_Eq.
  all: destruct (Pos.compare_spec mx my), (Pos.compare_spec my mz),
         (Pos.compare_spec mx mz);
    simpl; try discriminate; try reflexivity; try lia.
Qed.

Lemma ltb_irrefl (x : float) : ltb x x = false.
Proof.
  unfold ltb, SFltb.
  destruct x as [s|s| |s m e]; simpl; try reflexivity;
    destruct s; simpl; try reflexivity.
  all: rewrite Z.compare_refl, Pos.compare_cont_refl; reflexivity.
Qed.

Lemma ltb_eqb_false (x y : float) : SFeqb x y = true -> ltb y x = false.
Proof.
  unfold ltb, SFltb, SFeqb.
  destruct x as [sx|sx| |sx mx ex], y as [sy|sy| |sy my ey];
    simpl; try discriminate; try reflexivity;
    repeat match goal with b : bool |- _ => destruct b end;
    simpl; try discriminate; try reflexivity.
  all: rewrite (Z.compare_antisym ex ey);
    destruct (Z.compare_spec ex ey); simpl; try discriminate; try reflexivity.
  all: rewrite !Pos.compare_cont_spec; simpl; unfold Pos.switch_Eq.
  all: rewrite (Pos.compare_antisym mx my);
    destruct (Pos.compare_spec mx my); simpl; try discriminate; reflexivity.
Qed.

Lemma ltb_nan_l (x : float) : ltb nan x = false.
Proof. reflexivity. Qed.

Lemma ltb_nan_r (x : float) : ltb x nan = false.
Proof. destruct x; reflexivity. Qed.

Section Digits.

Lemma digits2_pos_bounds (p : positive) :
  2 ^ (Zpos (digits2_pos p) - 1) <= Zpos p < 2 ^ Zpos (digits2_pos p).
Proof.
  induction p as [p IH|p IH|]; cbn [digits2_pos].
  - rewrite Pos2Z.inj_succ.
    replace (Z.succ (Zpos (digits2_pos p)) - 1) with (Z.succ (Zpos (digits2_pos p) - 1)) by lia.
    rewrite !Z.pow_succ_r by lia. lia.
  - rewrite Pos2Z.inj_succ.
    replace (Z.succ (Zpos (digits2_pos p)) - 1) with (Z.succ (Zpos (digits2_pos p) - 1)) by lia.
    rewrite !Z.pow_succ_r by lia. lia.
  - simpl. lia.
Qed.

Lemma Zdigits2_bounds (m : Z) :
  0 < m -> 2 ^ (Zdigits2 m - 1) <= m < 2 ^ Zdigits2 m.
Proof. destruct m as [|p|p]; try lia. intros _. apply digits2_pos_bounds. Qed.

Lemma Zdigits2_pos (m : Z) : 0 < m -> 0 < Zdigits2 m.
Proof. destruct m; simpl; lia. Qed.

Lemma Zdigits2_unique (m d : Z) :
  2 ^ (d - 1) <= m < 2 ^ d -> 0 < d -> Zdigits2 m = d.
Proof.
  intros [Hlo Hhi] Hd.
  assert (0 < m) by (pose proof (Z.pow_pos_nonneg 2 (d - 1)); lia).
  pose proof (Zdigits2_bounds m H) as [Hlo' Hhi'].
  pose proof (Zdigits2_pos m H) as Hp.
  destruct (Z.lt_trichotomy (Zdigits2 m) d) as [Hlt|[Heq|Hgt]]; [|done|].
  - assert (2 ^ Zdigits2 m <= 2 ^ (d - 1)) by (apply Z.pow_le_mono_r; lia). lia.
  - assert (2 ^ d <= 2 ^ (Zdigits2 m - 1)) by (apply Z.pow_le_mono_r; lia). lia.
Qed.

End Digits.

Section Shift.

Lemma located_bounds mrs N D :
  located mrs N D -> shr_m mrs * D <= N < (shr_m mrs + 1) * D.
Proof.
  destruct mrs as [m r s]. unfold located. simpl.
  intros (Hm & HD & H). destruct r, s; nia.
Qed.

Lemma located_div mrs N D : located mrs N D -> shr_m mrs = N / D.
Proof.
  intros H. pose proof (located_bounds _ _ _ H) as Hb.
  destruct H as (Hm & HD & _).
  apply Z.div_unique with (r := N - shr_m mrs * D); lia.
Qed.

Lemma shr_1_located mrs N D :
  located mrs N D -> located (shr_1 mrs) N (2 * D).
Proof.
  destruct mrs as [m r s]. unfold located. simpl.
  intros (Hm & HD & H).
  destruct m as [|[p|p|]|p]; try lia; destruct r, s; simpl; nia.
Qed.

Lemma pow2_xO (k : positive) : 2 ^ Zpos k~0 = 2 ^ Zpos k * 2 ^ Zpos k.
Proof. rewrite <- Z.pow_add_r by lia. f_equal. lia. Qed.

Lemma pow2_xI (k : positive) : 2 ^ Zpos k~1 = 2 * (2 ^ Zpos k * 2 ^ Zpos k).
Proof.
  rewrite <- Z.pow_add_r, <- Z.pow_succ_r by lia. f_equal. lia.
Qed.

Lemma iter_pos_shr_1_located (k : positive) mrs N D :
  located mrs N D ->
  located (SpecFloat.iter_pos shr_1 k mrs) N (2 ^ Zpos k * D).
Proof.
  revert mrs D.
  induction k as [k IH|k IH|]; intros mrs D H; cbn [SpecFloat.iter_pos].
  - apply shr_1_located in H. apply IH, IH in H.
    replace (2 ^ Zpos k~1 * D) with (2 ^ Zpos k * (2 ^ Zpos k * (2 * D)));
      [done|]. rewrite pow2_xI. ring.
  - apply IH, IH in H.
    replace (2 ^ Zpos k~0 * D) with (2 ^ Zpos k * (2 ^ Zpos k * D));
      [done|]. rewrite pow2_xO. ring.
  - apply shr_1_located in H. by change (2 ^ 1) with 2.
Qed.

Lemma round_nearest_even_located mrs N D :
  located mrs N D ->
  let m' := round_nearest_even (shr_m mrs) (loc_of_shr_record mrs) in
  shr_m mrs <= m' <= shr_m mrs + 1 /\ 2 * Z.abs (m' * D - N) <= D.
Proof.
  destruct mrs as [m r s]. unfold located. simpl.
  intros (Hm & HD & H).
  destruct r, s; simpl; try destruct (Z.even m); nia.
Qed.

End Shift.

Section Round.

Lemma fexp_eq (x : Z) : fexp 53 1024 x = Z.max (x - 53) (-1074).
Proof. reflexivity. Qed.

Lemma shr_m_of_loc m l : shr_m (shr_record_of_loc m l) = m.
Proof. by destruct l as [|[]]. Qed.

Lemma located_exact (m D : Z) :
  0 <= m -> 0 < D -> located (shr_record_of_loc m loc_Exact) (m * D) D.
Proof. intros. unfold located. simpl. lia. Qed.

Lemma shr_located mrs e k N D :
  0 <= k -> located mrs N D ->
  exists mrs', shr mrs e k = (mrs', e + k) /\ located mrs' N (2 ^ k * D).
Proof.
  intros Hk H. destruct k as [|p|p]; [| |lia].
  - exists mrs. split; [simpl; f_equal; lia|].
    by replace (2 ^ 0 * D) with D by lia.
  - exists (SpecFloat.iter_pos shr_1 p mrs). split; [done|].
    by apply iter_pos_shr_1_located.
Qed.

(** Rounding from the normal range on: the mantissa [m], of at least
    53 digits, with its location describes [N / D]; the result has the
    nearest 53-digit mantissa at the scale of [2 ^ k], or is infinite
    when the exponent is out of range. *)
Lemma binary_round_aux_cases s m e l N D :
  0 < m -> located (shr_record_of_loc m l) N D ->
  53 <= Zdigits2 m -> -1074 <= Zdigits2 m + e - 53 ->
  let k := Zdigits2 m - 53 in
  exists m2,
    2 ^ 52 <= m2 <= 2 ^ 53
    /\ 2 * Z.abs (m2 * (2 ^ k * D) - N) <= 2 ^ k * D
    /\ binary_round_aux 53 1024 s m e l =
       if m2 <? 2 ^ 53
       then if e + k <=? 971 then S754_finite s (Z.to_pos m2) (e + k)
            else S754_infinity s
       else if e + k + 1 <=? 971
            then S754_finite s (Z.to_pos (2 ^ 52)) (e + k + 1)
            else S754_infinity s.
Proof.
  intros Hm Hloc Hd Hlo k.
  pose proof (Zdigits2_bounds m Hm) as Hmb.
  assert (Hk : 0 <= k) by (unfold k; lia).
  destruct (shr_located (shr_record_of_loc m l) e k N D Hk Hloc)
    as (mrs1 & Hshr & Hloc1).
  pose proof (located_bounds _ _ _ Hloc) as Hb. rewrite shr_m_of_loc in Hb.
  pose proof (located_bounds _ _ _ Hloc1) as Hb1.
  assert (HD : 0 < D) by (destruct Hloc as (_ & ? & _); done).
  assert (HP : 0 < 2 ^ k) by (apply Z.pow_pos_nonneg; lia).
  assert (Hpd : 2 ^ Zdigits2 m = 2 ^ k * 2 ^ 53).
  { rewrite <- Z.pow_add_r by lia. f_equal. unfold k. lia. }
  assert (Hpd1 : 2 ^ (Zdigits2 m - 1) = 2 ^ k * 2 ^ 52).
  { rewrite <- Z.pow_add_r by lia. f_equal. unfold k. lia. }
  assert (Hm1 : 2 ^ 52 <= shr_m mrs1 < 2 ^ 53).
  { rewrite Hpd in Hmb. rewrite Hpd1 in Hmb.
    set (P := 2 ^ k) in *. set (m1 := shr_m mrs1) in *.
    change (2 ^ 52) with 4503599627370496 in *.
    change (2 ^ 53) with 9007199254740992 in *.
    split.
    - assert (4503599627370496 * (P * D) < (m1 + 1) * (P * D)) by nia.
      apply Z.mul_lt_mono_pos_r in H; [lia|nia].
    - assert (m1 * (P * D) < 9007199254740992 * (P * D)) by nia.
      apply Z.mul_lt_mono_pos_r in H; [lia|nia]. }
  pose proof (round_nearest_even_located _ _ _ Hloc1) as [Hm2 Herr].
  set (m2 := round_nearest_even (shr_m mrs1) (loc_of_shr_record mrs1)) in *.
  exists m2. split; [lia|]. split; [done|].
  unfold binary_round_aux.
  unfold shr_fexp at 1. rewrite fexp_eq.
  replace (Z.max (Zdigits2 m + e - 53) (-1074) - e) with k by (unfold k; lia).
  rewrite Hshr. fold m2.
  unfold shr_fexp. rewrite fexp_eq.
  change (1024 - 53) with 971.
  destruct (Z.ltb_spec m2 (2 ^ 53)) as [Hlt|Hge].
  - rewrite (Zdigits2_unique m2 53) by (change (2 ^ (53 - 1)) with (2 ^ 52); lia).
    replace (Z.max (53 + (e + k) - 53) (-1074) - (e + k)) with 0
      by (unfold k; lia).
    cbn [shr shr_record_of_loc shr_m].
    destruct m2 as [|p|p]; try lia. done.
  - assert (m2 = 2 ^ 53) as -> by lia.
    replace (Z.max (Zdigits2 (2 ^ 53) + (e + k) - 53) (-1074) - (e + k)) with 1
      by (change (Zdigits2 (2 ^ 53)) with 54; unfold k; lia).
    cbn [shr shr_record_of_loc shr_m].
    change (SpecFloat.iter_pos shr_1 1 {| shr_m := 2 ^ 53; shr_r := false; shr_s := false |})
      with {| shr_m := 2 ^ 52; shr_r := false; shr_s := false |}.
    cbn [shr_m]. change (2 ^ 52) with 4503599627370496. done.
Qed.

(** The same when the exponent stays in range: the result is finite. *)
Lemma binary_round_aux_normal s m e l N D :
  0 < m -> located (shr_record_of_loc m l) N D ->
  53 <= Zdigits2 m -> -1074 <= Zdigits2 m + e - 53 -> Zdigits2 m + e <= 1023 ->
  let k := Zdigits2 m - 53 in
  exists m2,
    2 ^ 52 <= m2 <= 2 ^ 53
    /\ 2 * Z.abs (m2 * (2 ^ k * D) - N) <= 2 ^ k * D
    /\ binary_round_aux 53 1024 s m e l =
       if m2 <? 2 ^ 53 then S754_finite s (Z.to_pos m2) (e + k)
       else S754_finite s (Z.to_pos (2 ^ 52)) (e + k + 1).
Proof.
  intros Hm Hloc Hd Hlo Hhi k.
  destruct (binary_round_aux_cases s m e l N D Hm Hloc Hd Hlo)
    as (m2 & Hm2 & Herr & Hres).
  exists m2. split; [done|]. split; [done|]. rewrite Hres. fold k.
  replace (e + k <=? 971) with true
    by (symmetry; apply Z.leb_le; unfold k; lia).
  replace (e + k + 1 <=? 971) with true
    by (symmetry; apply Z.leb_le; unfold k; lia).
  done.
Qed.

End Round.

Section Value.

Lemma Qpow2_pos (e : Z) : (0 < 2 ^ e)%Q.
Proof. apply Qpower_0_lt. reflexivity. Qed.

Lemma Qpow2_add (a b : Z) : (2 ^ (a + b) == 2 ^ a * 2 ^ b)%Q.
Proof. apply Qpower_plus. discriminate. Qed.

Lemma Qpow2_inject (k : Z) : 0 <= k -> (inject_Z (2 ^ k) == 2 ^ k)%Q.
Proof. intros H. by rewrite Zpower_Qpower. Qed.

(** A relative error of [2^-53] at the scale of an integer quotient
    carries over to the rationals. *)
Lemma relative_error_Q (R N D : Z) (t : Q) :
  0 < D -> (0 < t)%Q ->
  2 ^ 53 * Z.abs (R * D - N) <= N ->
  (Qabs (inject_Z R * t - inject_Z N / inject_Z D * t)
   <= inject_Z N / inject_Z D * t * (1 # 9007199254740992))%Q.
Proof.
  intros HD Ht H.
  change (2 ^ 53) with 9007199254740992 in H.
  assert (HDq : (0 < inject_Z D)%Q).
  { change 0%Q with (inject_Z 0). by rewrite <- Zlt_Qlt. }
  set (q := (inject_Z N / inject_Z D)%Q).
  assert (Hq : (q * inject_Z D == inject_Z N)%Q).
  { unfold q. field. intros E. rewrite E in HDq. by apply Qlt_irrefl in HDq. }
  assert (H1 : (9007199254740992 * (inject_Z R * inject_Z D - inject_Z N) <= inject_Z N)%Q).
  { unfold Qminus. rewrite <- !inject_Z_mult, <- ?inject_Z_opp, <- inject_Z_plus.
    change (9007199254740992%Q) with (inject_Z 9007199254740992).
    rewrite <- inject_Z_mult, <- Zle_Qle. lia. }
  assert (H2 : (9007199254740992 * (inject_Z N - inject_Z R * inject_Z D) <= inject_Z N)%Q).
  { unfold Qminus. rewrite <- !inject_Z_mult, <- ?inject_Z_opp, <- inject_Z_plus.
    change (9007199254740992%Q) with (inject_Z 9007199254740992).
    rewrite <- inject_Z_mult, <- Zle_Qle. lia. }
  rewrite <- Hq in H1, H2.
  set (Rq := inject_Z R) in *. set (Dq := inject_Z D) in *.
  assert (H1' : (9007199254740992 * (Rq - q) <= q)%Q) by nra.
  assert (H2' : (9007199254740992 * (q - Rq) <= q)%Q) by nra.
  apply Qabs_Qle_condition. split; nra.
Qed.

End Value.

Section Operations.

(** The value and the shape of a rounded result in the normal range. *)
Lemma binary_round_aux_value m e l N D :
  0 < m -> located (shr_record_of_loc m l) N D ->
  53 <= Zdigits2 m -> -1074 <= Zdigits2 m + e - 53 -> Zdigits2 m + e <= 1023 ->
  exists mr er,
    binary_round_aux 53 1024 false m e l = S754_finite false mr er
    /\ Zdigits2 (Zpos mr) = 53
    /\ Zdigits2 m + e - 53 <= er <= Zdigits2 m + e - 52
    /\ (Qabs (inject_Z (Zpos mr) * 2 ^ er - inject_Z N / inject_Z D * 2 ^ e)
        <= inject_Z N / inject_Z D * 2 ^ e * (1 # 9007199254740992))%Q.
Proof.
  intros Hm Hloc Hd Hlo Hhi.
  destruct (binary_round_aux_normal false m e l N D Hm Hloc Hd Hlo Hhi)
    as (m2 & Hm2 & Herr & Hres).
  set (k := Zdigits2 m - 53) in *.
  assert (Hk : 0 <= k) by (unfold k; lia).
  assert (HD : 0 < D) by (destruct Hloc as (_ & ? & _); done).
  assert (HP : 0 < 2 ^ k) by (apply Z.pow_pos_nonneg; lia).
  pose proof (located_bounds _ _ _ Hloc) as Hb. rewrite shr_m_of_loc in Hb.
  pose proof (Zdigits2_bounds m Hm) as [Hmlo _].
  assert (Hpd1 : 2 ^ (Zdigits2 m - 1) = 2 ^ k * 2 ^ 52).
  { rewrite <- Z.pow_add_r by lia. f_equal. unfold k. lia. }
  rewrite Hpd1 in Hmlo.
  assert (Hrel : 2 ^ 53 * Z.abs (m2 * 2 ^ k * D - N) <= N).
  { replace (m2 * 2 ^ k * D) with (m2 * (2 ^ k * D)) by ring.
    change (2 ^ 53) with (2 * 2 ^ 52). change (2 ^ 52) with 4503599627370496 in *.
    set (P := 2 ^ k) in *. nia. }
  pose proof (relative_error_Q (m2 * 2 ^ k) N D (2 ^ e) HD (Qpow2_pos e) Hrel)
    as HQ.
  assert (Hval : (inject_Z m2 * 2 ^ (e + k) == inject_Z (m2 * 2 ^ k) * 2 ^ e)%Q).
  { rewrite Qpow2_add, inject_Z_mult, Qpow2_inject by done. ring. }
  destruct (Z.ltb_spec m2 (2 ^ 53)) as [Hlt|Hge].
  - exists (Z.to_pos m2), (e + k). split; [done|].
    rewrite Z2Pos.id by lia. split.
    { apply Zdigits2_unique; [change (2 ^ (53 - 1)) with (2 ^ 52)|]; lia. }
    split; [unfold k; lia|]. by rewrite Hval.
  - assert (m2 = 2 ^ 53) as -> by lia.
    exists (Z.to_pos (2 ^ 52)), (e + k + 1). split; [done|].
    split; [done|]. split; [unfold k; lia|].
    assert (Hval' : (inject_Z (Zpos (Z.to_pos (2 ^ 52))) * 2 ^ (e + k + 1)
                     == inject_Z (2 ^ 53) * 2 ^ (e + k))%Q).
    { rewrite (Qpow2_add (e + k) 1).
      change (inject_Z (Zpos (Z.to_pos (2 ^ 52)))) with (4503599627370496%Q).
      change (inject_Z (2 ^ 53)) with (9007199254740992%Q).
      change (2 ^ 1)%Q with 2%Q. ring. }
    by rewrite Hval', Hval.
Qed.

End Operations.

Section Exact.

Lemma Zdigits2_mul_pow2 (m k : Z) :
  0 < m -> 0 <= k -> Zdigits2 (m * 2 ^ k) = Zdigits2 m + k.
Proof.
  intros Hm Hk. pose proof (Zdigits2_bounds m Hm) as [Hlo Hhi].
  pose proof (Zdigits2_pos m Hm).
  apply Zdigits2_unique; [|lia].
  replace (Zdigits2 m + k - 1) with (Zdigits2 m - 1 + k) by lia.
  rewrite !Z.pow_add_r by lia.
  assert (0 < 2 ^ k) by (apply Z.pow_pos_nonneg; lia). nia.
Qed.

(** A mantissa that is a 53-digit number times a power of two is
    rounded to that number, exactly. *)
Lemma binary_round_aux_exact s m0 k e :
  0 < m0 -> Zdigits2 m0 = 53 -> 0 <= k -> -1074 <= e + k -> e + k <= 970 ->
  binary_round_aux 53 1024 s (m0 * 2 ^ k) e loc_Exact =
  S754_finite s (Z.to_pos m0) (e + k).
Proof.
  intros Hm0 Hd Hk Hlo Hhi.
  pose proof (Zdigits2_bounds m0 Hm0) as Hb. rewrite Hd in Hb.
  assert (HP : 0 < 2 ^ k) by (apply Z.pow_pos_nonneg; lia).
  assert (Hm : 0 < m0 * 2 ^ k) by nia.
  pose proof (Zdigits2_mul_pow2 m0 k Hm0 Hk) as Hdm. rewrite Hd in Hdm.
  destruct (binary_round_aux_normal s (m0 * 2 ^ k) e loc_Exact
              (m0 * 2 ^ k * 1) 1) as (m2 & Hm2 & Herr & Hres);
    [done|apply located_exact; lia|rewrite Hdm; lia..|].
  rewrite Hdm in Herr, Hres.
  replace (53 + k - 53) with k in Herr, Hres by lia.
  assert (m2 = m0) as -> by nia.
  change (2 ^ (53 - 1)) with (2 ^ 52) in Hb.
  replace (m0 <? 2 ^ 53) with true in Hres by (symmetry; apply Z.ltb_lt; lia).
  done.
Qed.

Lemma pos_iter_xO (p n : positive) :
  Zpos (Pos.iter xO p n) = Zpos p * 2 ^ Zpos n.
Proof.
  induction n as [|n IH] using Pos.peano_ind.
  - simpl. lia.
  - rewrite Pos.iter_succ, Pos2Z.inj_xO, IH, Pos2Z.inj_succ,
      Z.pow_succ_r by lia. ring.
Qed.

(** An integer below [2^53] converts without rounding. *)
Lemma of_int_exact (z : Z) :
  0 < z < 2 ^ 53 ->
  of_int z = S754_finite false (Z.to_pos (z * 2 ^ (53 - Zdigits2 z)))
                         (Zdigits2 z - 53).
Proof.
  intros [Hz Hlt]. destruct z as [|p|p]; try lia.
  pose proof (Zdigits2_bounds (Zpos p) Hz) as [Hlo Hhi].
  pose proof (Zdigits2_pos (Zpos p) Hz) as Hdp.
  assert (Hd : Zdigits2 (Zpos p) <= 53).
  { destruct (Z.le_gt_cases (Zdigits2 (Zpos p)) 53); [done|].
    assert (2 ^ 53 <= 2 ^ (Zdigits2 (Zpos p) - 1))
      by (apply Z.pow_le_mono_r; lia). lia. }
  unfold of_int, prec, emax, binary_normalize, binary_round, shl_align.
  rewrite fexp_eq.
  change (Zpos (digits2_pos p)) with (Zdigits2 (Zpos p)).
  set (d := Zdigits2 (Zpos p)) in *.
  replace (Z.max (d + 0 - 53) (-1074) - 0) with (d - 53) by lia.
  replace (Z.max (d + 0 - 53) (-1074)) with (d - 53) by lia.
  destruct (Z.eq_dec d 53) as [E|NE].
  - rewrite E. change (53 - 53) with 0. cbv beta iota zeta.
    replace (binary_round_aux 53 1024 false (Zpos p) 0 loc_Exact)
      with (binary_round_aux 53 1024 false (Zpos p * 2 ^ 0) 0 loc_Exact)
      by (f_equal; lia).
    rewrite binary_round_aux_exact by (fold d; lia).
    f_equal; lia.
  - destruct (d - 53) as [|q|q] eqn:Hq; try lia.
    cbv beta iota zeta. rewrite pos_iter_xO.
    replace (binary_round_aux 53 1024 false (Zpos p * 2 ^ Zpos q) (Zneg q) loc_Exact)
      with (binary_round_aux 53 1024 false (Zpos p * 2 ^ Zpos q * 2 ^ 0)
              (Zneg q) loc_Exact)
      by (f_equal; lia).
    assert (H0 : 0 < 2 ^ Zpos q) by (apply Z.pow_pos_nonneg; lia).
    rewrite binary_round_aux_exact.
    + replace (53 - d) with (Zpos q) by lia. f_equal; lia.
    + nia.
    + rewrite Zdigits2_mul_pow2 by lia. fold d. lia.
    + lia.
    + lia.
    + lia.
Qed.

(** Halving a normal value is exact. *)
Lemma mul_half_exact (m : positive) (e : Z) :
  Zdigits2 (Zpos m) = 53 -> -1073 <= e <= 971 ->
  SFmul 53 1024 (S754_finite false m e) f0_5 = S754_finite false m (e - 1).
Proof.
  intros Hd He. unfold SFmul, f0_5. cbn [xorb].
  change (Zpos (m * 4503599627370496)) with (Zpos m * 2 ^ 52).
  rewrite binary_round_aux_exact by lia.
  f_equal. lia.
Qed.

End Exact.

Section MulDiv.

Lemma div_eucl_div_mod (a b : Z) : Z.div_eucl a b = (a / b, a mod b).
Proof. unfold Z.div, Z.modulo. by destruct (Z.div_eucl a b). Qed.

(** The location that the division computes from the remainder is the
    location of the quotient. *)
Lemma new_location_located (N D : Z) :
  0 <= N -> 0 < D ->
  located (shr_record_of_loc (N / D) (new_location D (N mod D))) N D.
Proof.
  intros HN HD.
  pose proof (Z.div_mod N D ltac:(lia)) as Hdm.
  pose proof (Z.mod_pos_bound N D HD) as Hr.
  assert (Hq : 0 <= N / D) by (apply Z.div_pos; lia).
  set (q := N / D) in *. set (r := N mod D) in *.
  unfold new_location. destruct (Z.even D) eqn:Hev.
  - unfold new_location_even.
    destruct (Z.eqb_spec r 0) as [Hr0|Hr0].
    + unfold located; simpl. nia.
    + destruct (Z.compare_spec (2 * r) D); unfold located; simpl; nia.
  - assert (Hodd : Z.odd D = true) by (rewrite <- Z.negb_even, Hev; done).
    apply Z.odd_spec in Hodd as [t Ht].
    unfold new_location_odd.
    destruct (Z.eqb_spec r 0) as [Hr0|Hr0].
    + unfold located; simpl. nia.
    + destruct (Z.compare_spec (2 * r + 1) D); unfold located; simpl; nia.
Qed.

Lemma Zdigits2_53 (m : positive) :
  Zdigits2 (Zpos m) = 53 -> 2 ^ 52 <= Zpos m < 2 ^ 53.
Proof.
  intros H. pose proof (Zdigits2_bounds (Zpos m) ltac:(lia)) as Hb.
  by rewrite H in Hb.
Qed.

(** The product of two normal values, rounded once. *)
Lemma mul_value (mx my : positive) (ex ey : Z) :
  Zdigits2 (Zpos mx) = 53 -> Zdigits2 (Zpos my) = 53 ->
  -1126 <= ex + ey -> ex + ey <= 917 ->
  exists mr er,
    SFmul 53 1024 (S754_finite false mx ex) (S754_finite false my ey)
    = S754_finite false mr er
    /\ Zdigits2 (Zpos mr) = 53
    /\ ex + ey + 52 <= er <= ex + ey + 54
    /\ (Qabs (inject_Z (Zpos mr) * 2 ^ er
              - inject_Z (Zpos mx) * 2 ^ ex * (inject_Z (Zpos my) * 2 ^ ey))
        <= inject_Z (Zpos mx) * 2 ^ ex * (inject_Z (Zpos my) * 2 ^ ey)
           * (1 # 9007199254740992))%Q.
Proof.
  intros Hdx Hdy Hlo Hhi.
  pose proof (Zdigits2_53 mx Hdx) as Hbx.
  pose proof (Zdigits2_53 my Hdy) as Hby.
  change (2 ^ 52) with 4503599627370496 in *.
  change (2 ^ 53) with 9007199254740992 in *.
  assert (Hd : 105 <= Zdigits2 (Zpos mx * Zpos my) <= 106).
  { destruct (Z.lt_ge_cases (Zpos mx * Zpos my) (2 ^ 105)) as [H|H].
    - rewrite (Zdigits2_unique _ 105); [lia| |lia].
      split; [|done]. change (2 ^ (105 - 1)) with (4503599627370496 * 4503599627370496). nia.
    - rewrite (Zdigits2_unique _ 106); [lia| |lia].
      split; [done|]. change (2 ^ 106) with (9007199254740992 * 9007199254740992). nia. }
  unfold SFmul. cbn [xorb]. rewrite Pos2Z.inj_mul.
  destruct (binary_round_aux_value (Zpos mx * Zpos my) (ex + ey) loc_Exact
              (Zpos mx * Zpos my * 1) 1)
    as (mr & er & Hres & Hdr & Her & HQ);
    [lia|apply located_exact; lia|lia..|].
  exists mr, er. split; [done|]. split; [done|]. split; [lia|].
  assert (Hx : (inject_Z (Zpos mx * Zpos my * 1) / inject_Z 1 * 2 ^ (ex + ey)
                == inject_Z (Zpos mx) * 2 ^ ex * (inject_Z (Zpos my) * 2 ^ ey))%Q).
  { rewrite Qpow2_add, !inject_Z_mult. field. }
  by rewrite <- Hx.
Qed.

(** The quotient of two normal values, rounded once. *)
Lemma div_value (mx my : positive) (ex ey : Z) :
  Zdigits2 (Zpos mx) = 53 -> Zdigits2 (Zpos my) = 53 ->
  -1021 <= ex - ey -> ex - ey <= 1022 ->
  exists mr er,
    SFdiv 53 1024 (S754_finite false mx ex) (S754_finite false my ey)
    = S754_finite false mr er
    /\ Zdigits2 (Zpos mr) = 53
    /\ ex - ey - 53 <= er <= ex - ey - 51
    /\ (Qabs (inject_Z (Zpos mr) * 2 ^ er
              - inject_Z (Zpos mx) * 2 ^ ex / (inject_Z (Zpos my) * 2 ^ ey))
        <= inject_Z (Zpos mx) * 2 ^ ex / (inject_Z (Zpos my) * 2 ^ ey)
           * (1 # 9007199254740992))%Q.
Proof.
  intros Hdx Hdy Hlo Hhi.
  pose proof (Zdigits2_53 mx Hdx) as Hbx.
  pose proof (Zdigits2_53 my Hdy) as Hby.
  change (2 ^ 52) with 4503599627370496 in *.
  change (2 ^ 53) with 9007199254740992 in *.
  unfold SFdiv, SFdiv_core_binary. cbn [xorb].
  rewrite Hdx, Hdy, fexp_eq.
  replace (Z.min (Z.max (53 + ex - (53 + ey) - 53) (-1074)) (ex - ey))
    with (ex - ey - 53) by lia.
  replace (ex - ey - (ex - ey - 53)) with 53 by lia.
  cbv beta iota zeta.
  rewrite Z.shiftl_mul_pow2 by lia.
  change (2 ^ 53) with 9007199254740992.
  rewrite div_eucl_div_mod.
  set (N := Zpos mx * 9007199254740992).
  set (q := N / Zpos my).
  assert (Hq : 4503599627370496 <= q < 18014398509481984).
  { unfold q. split.
    - apply Z.div_le_lower_bound; [lia|]. unfold N. nia.
    - apply Z.div_lt_upper_bound; [lia|]. unfold N. nia. }
  assert (Hd : 53 <= Zdigits2 q <= 54).
  { destruct (Z.lt_ge_cases q (2 ^ 53)) as [H|H].
    - rewrite (Zdigits2_unique _ 53); [lia| |lia].
      change (2 ^ (53 - 1)) with 4503599627370496. lia.
    - rewrite (Zdigits2_unique _ 54); [lia| |lia].
      change (2 ^ (54 - 1)) with (2 ^ 53).
      change (2 ^ 54) with 18014398509481984. lia. }
  destruct (binary_round_aux_value q (ex - ey - 53)
              (new_location (Zpos my) (N mod Zpos my)) N (Zpos my))
    as (mr & er & Hres & Hdr & Her & HQ);
    [lia|apply new_location_located; unfold N; lia|lia..|].
  exists mr, er. split; [done|]. split; [done|]. split; [lia|].
  assert (Hx : (inject_Z N / inject_Z (Zpos my) * 2 ^ (ex - ey - 53)
                == inject_Z (Zpos mx) * 2 ^ ex / (inject_Z (Zpos my) * 2 ^ ey))%Q).
  { unfold N. rewrite inject_Z_mult.
    change (inject_Z 9007199254740992) with (2 ^ 53)%Q.
    replace ex with ((ex - ey - 53) + 53 + ey) at 2 by lia.
    rewrite !Qpow2_add.
    pose proof (Qpow2_pos ey). pose proof (Qpow2_pos (ex - ey - 53)).
    assert (0 < inject_Z (Zpos my))%Q by done.
    field. split; intros E.
    - rewrite E in H. by apply Qlt_irrefl in H.
    - rewrite E in H1. by apply Qlt_irrefl in H1. }
  by rewrite <- Hx.
Qed.

End MulDiv.

Section Sign.

Lemma located_any (m : Z) (l : location) :
  0 <= m -> exists N D, located (shr_record_of_loc m l) N D.
Proof.
  intros Hm. destruct l as [|[]].
  - exists (4 * m), 4. unfold located; simpl. lia.
  - exists (4 * m + 2), 4. unfold located; simpl. lia.
  - exists (4 * m + 1), 4. unfold located; simpl. lia.
  - exists (4 * m + 3), 4. unfold located; simpl. lia.
Qed.

Lemma binary_round_aux_nonzero s m e l :
  0 < m -> 53 <= Zdigits2 m -> -1074 <= Zdigits2 m + e - 53 ->
  nonzero s (Zdigits2 m + e - 53) (binary_round_aux 53 1024 s m e l).
Proof.
  intros Hm Hd Hlo.
  destruct (located_any m l) as (N & D & Hloc); [lia|].
  destruct (binary_round_aux_cases s m e l N D Hm Hloc Hd Hlo)
    as (m2 & Hm2 & _ & ->).
  destruct (Z.ltb_spec m2 (2 ^ 53)).
  - destruct (e + (Zdigits2 m - 53) <=? 971); [right|by left].
    exists (Z.to_pos m2), (e + (Zdigits2 m - 53)). split; [done|].
    rewrite Z2Pos.id by lia. split; [|lia].
    apply Zdigits2_unique; [change (2 ^ (53 - 1)) with (2 ^ 52)|]; lia.
  - destruct (e + (Zdigits2 m - 53) + 1 <=? 971); [right|by left].
    exists (Z.to_pos (2 ^ 52)), (e + (Zdigits2 m - 53) + 1).
    split; [done|]. split; [done|lia].
Qed.

Lemma binary_round_nonzero s (p : positive) :
  nonzero s (-52) (binary_round 53 1024 s p 0).
Proof.
  pose proof (Zdigits2_pos (Zpos p) ltac:(lia)) as Hdp.
  unfold binary_round, shl_align. rewrite fexp_eq.
  change (Zpos (digits2_pos p)) with (Zdigits2 (Zpos p)).
  set (d := Zdigits2 (Zpos p)) in *.
  replace (Z.max (d + 0 - 53) (-1074) - 0) with (d - 53) by lia.
  replace (Z.max (d + 0 - 53) (-1074)) with (d - 53) by lia.
  destruct (d - 53) as [|q|q] eqn:Hq; cbv beta iota zeta.
  - destruct (binary_round_aux_nonzero s (Zpos p) 0 loc_Exact)
      as [H|(m & e & H & Hm & He)]; fold d; try lia; [by left|right].
    exists m, e. split; [done|]. split; [done|lia].
  - destruct (binary_round_aux_nonzero s (Zpos p) 0 loc_Exact)
      as [H|(m & e & H & Hm & He)]; fold d; try lia; [by left|right].
    exists m, e. split; [done|]. split; [done|]. fold d in He. lia.
  - rewrite pos_iter_xO.
    assert (H0 : 0 < 2 ^ Zpos q) by (apply Z.pow_pos_nonneg; lia).
    assert (Hdq : Zdigits2 (Zpos p * 2 ^ Zpos q) = 53).
    { rewrite Zdigits2_mul_pow2 by lia. fold d. lia. }
    assert (Hpos : 0 < Zpos p * 2 ^ Zpos q) by (apply Z.mul_pos_pos; lia).
    destruct (binary_round_aux_nonzero s (Zpos p * 2 ^ Zpos q) (Zneg q)
                loc_Exact Hpos) as [H|(m & e & H & Hm & He)];
      rewrite ?Hdq; try lia; [by left|right].
    exists m, e. split; [done|]. split; [done|]. rewrite Hdq in He. lia.
Qed.

Lemma of_int_nonzero (z : Z) :
  z <> 0 -> nonzero (z <? 0) (-52) (of_int z).
Proof.
  intros Hz. destruct z as [|p|p]; [done| |]; apply binary_round_nonzero.
Qed.

Lemma mul_1e6_nonzero s (x : spec_float) :
  nonzero s (-52) x -> nonzero s (-1074) (SFmul 53 1024 x f1e6).
Proof.
  intros [->|(m & e & -> & Hm & He)].
  - left. by destruct s.
  - unfold SFmul, f1e6. rewrite xorb_false_r, Pos2Z.inj_mul.
    pose proof (Zdigits2_53 m Hm) as Hb.
    change (2 ^ 52) with 4503599627370496 in *.
    change (2 ^ 53) with 9007199254740992 in *.
    assert (Hd : 105 <= Zdigits2 (Zpos m * 8589934592000000)).
    { destruct (Z.lt_ge_cases (Zpos m * 8589934592000000) (2 ^ 105)) as [H|H].
      - rewrite (Zdigits2_unique _ 105); [lia| |lia].
        split; [|done].
        change (2 ^ (105 - 1)) with (4503599627370496 * 4503599627370496). lia.
      - rewrite (Zdigits2_unique _ 106); [lia| |lia].
        split; [done|].
        change (2 ^ 106) with (9007199254740992 * 9007199254740992). lia. }
    destruct (binary_round_aux_nonzero s (Zpos m * 8589934592000000)
                (e + -33) loc_Exact) as [H|(mr & er & H & Hmr & Her)];
      try lia; [by left|right].
    exists mr, er. split; [done|]. split; [done|lia].
Qed.

End Sign.

Section Order.

Lemma of_int_value (z : Z) :
  0 < z < 2 ^ 53 ->
  exists m e,
    of_int z = S754_finite false m e
    /\ Zdigits2 (Zpos m) = 53 /\ -52 <= e <= 0
    /\ (inject_Z (Zpos m) * 2 ^ e == inject_Z z)%Q.
Proof.
  intros Hz. pose proof (of_int_exact z Hz) as Heq.
  pose proof (Zdigits2_pos z ltac:(lia)) as Hdp.
  pose proof (Zdigits2_bounds z ltac:(lia)) as [Hlo Hhi].
  assert (Hd : Zdigits2 z <= 53).
  { destruct (Z.le_gt_cases (Zdigits2 z) 53); [done|].
    assert (2 ^ 53 <= 2 ^ (Zdigits2 z - 1)) by (apply Z.pow_le_mono_r; lia).
    lia. }
  set (d := Zdigits2 z) in *.
  assert (HP : 0 < 2 ^ (53 - d)) by (apply Z.pow_pos_nonneg; lia).
  assert (Hpos : 0 < z * 2 ^ (53 - d)) by (apply Z.mul_pos_pos; lia).
  exists (Z.to_pos (z * 2 ^ (53 - d))), (d - 53).
  split; [done|]. rewrite Z2Pos.id by done. split; [|split; [lia|]].
  - rewrite Zdigits2_mul_pow2 by lia. fold d. lia.
  - rewrite inject_Z_mult, Qpow2_inject by lia.
    rewrite <- Qmult_assoc, <- Qpow2_add.
    replace (53 - d + (d - 53)) with 0 by lia.
    change (2 ^ 0)%Q with 1%Q. ring.
Qed.


Lemma value_lt_exp (mx my : positive) (ex ey : Z) :
  Zdigits2 (Zpos mx) = 53 -> Zdigits2 (Zpos my) = 53 -> ex < ey ->
  (inject_Z (Zpos mx) * 2 ^ ex < inject_Z (Zpos my) * 2 ^ ey)%Q.
Proof.
  intros Hdx Hdy Hlt.
  pose proof (Zdigits2_53 mx Hdx) as Hbx.
  pose proof (Zdigits2_53 my Hdy) as Hby.
  change (2 ^ 52) with 4503599627370496 in *.
  change (2 ^ 53) with 9007199254740992 in *.
  assert (H2 : 2 ^ 1 <= 2 ^ (ey - ex)) by (apply Z.pow_le_mono_r; lia).
  change (2 ^ 1) with 2 in H2.
  assert (HZ : Zpos mx < Zpos my * 2 ^ (ey - ex)) by nia.
  assert (E : (2 ^ ey == inject_Z (2 ^ (ey - ex)) * 2 ^ ex)%Q).
  { rewrite Qpow2_inject, <- Qpow2_add by lia. by replace (ey - ex + ex) with ey by lia. }
  rewrite E, Qmult_assoc, <- inject_Z_mult.
  apply Qmult_lt_compat_r; [apply Qpow2_pos|].
  by rewrite <- Zlt_Qlt.
Qed.

(** On normal positive values the comparison is the comparison of the
    rationals they denote. *)
Lemma ltb_normal (mx my : positive) (ex ey : Z) :
  Zdigits2 (Zpos mx) = 53 -> Zdigits2 (Zpos my) = 53 ->
  SFltb (S754_finite false mx ex) (S754_finite false my ey) = true
  <-> (inject_Z (Zpos mx) * 2 ^ ex < inject_Z (Zpos my) * 2 ^ ey)%Q.
Proof.
  intros Hdx Hdy. unfold SFltb, SFcompare.
  destruct (Z.compare_spec ex ey) as [->|Hlt|Hgt].
  - pose proof (Qpow2_pos ey) as Ht.
    change (Pos.compare_cont Eq mx my) with (Pos.compare mx my).
    destruct (Pos.compare_spec mx my) as [->|H|H].
    + split; [done|]. intros H. by apply Qlt_irrefl in H.
    + split; [intros _|done].
      apply Qmult_lt_compat_r; [done|]. rewrite <- Zlt_Qlt. lia.
    + split; [done|]. intros H'. exfalso.
      assert (inject_Z (Zpos my) * 2 ^ ey < inject_Z (Zpos mx) * 2 ^ ey)%Q.
      { apply Qmult_lt_compat_r; [done|]. rewrite <- Zlt_Qlt. lia. }
      lra.
  - split; [intros _|done]. by apply value_lt_exp.
  - split; [done|]. intros H'. exfalso.
    pose proof (value_lt_exp my mx ey ex Hdy Hdx Hgt). lra.
Qed.

(** The test [zero_peaks > len(df) * 0.5] on counts below [2^53]. *)
Lemma gt_half_spec (z L : Z) :
  0 <= z < 2 ^ 53 -> 0 < L < 2 ^ 53 ->
  SFltb (SFmul 53 1024 (of_int L) f0_5) (of_int z) = true <-> L < 2 * z.
Proof.
  intros Hz HL.
  destruct (of_int_value L HL) as (mL & eL & -> & HdL & HeL & HvL).
  rewrite mul_half_exact by (done || lia).
  destruct (Z.eq_dec z 0) as [->|Hz0].
  - change (of_int 0) with (S754_zero false). split; [done|lia].
  - destruct (of_int_value z ltac:(lia)) as (mz & ez & -> & Hdz & Hez & Hvz).
    rewrite ltb_normal by done.
    replace eL with (eL - 1 + 1) in HvL by lia.
    rewrite Qpow2_add in HvL. change (2 ^ 1)%Q with 2%Q in HvL.
    rewrite Hvz. rewrite (Zlt_Qlt L), inject_Z_mult, <- HvL.
    change (inject_Z 2) with 2%Q.
    set (t := (2 ^ (eL - 1))%Q). set (q := inject_Z (Zpos mL)).
    split; intros; nra.
Qed.

End Order.

(** An [int64] converts with a relative error of at most [2^-53]. *)
Lemma of_int_approx (z : Z) :
  0 < z < 2 ^ 63 ->
  exists m e,
    of_int z = S754_finite false m e
    /\ Zdigits2 (Zpos m) = 53 /\ -52 <= e <= 11
    /\ (Qabs (inject_Z (Zpos m) * 2 ^ e - inject_Z z)
        <= inject_Z z * (1 # 9007199254740992))%Q.
Proof.
  intros [Hz Hlt].
  assert (Hzq : (0 < inject_Z z)%Q).
  { change 0%Q with (inject_Z 0). by rewrite <- Zlt_Qlt. }
  destruct (Z.lt_ge_cases z (2 ^ 53)) as [Hsmall|Hbig].
  - destruct (of_int_value z) as (m & e & Hm & Hd & He & Hv); [lia|].
    exists m, e. split; [done|]. split; [done|]. split; [lia|].
    rewrite Hv. unfold Qminus. rewrite Qplus_opp_r. simpl Qabs.
    apply Qmult_le_0_compat; [by apply Qlt_le_weak|done].
  - destruct z as [|p|p]; try lia.
    pose proof (Zdigits2_bounds (Zpos p) Hz) as [Hlo Hhi].
    assert (Hd : 54 <= Zdigits2 (Zpos p) <= 63).
    { split.
      - destruct (Z.lt_ge_cases (Zdigits2 (Zpos p)) 54); [|done].
        assert (2 ^ Zdigits2 (Zpos p) <= 2 ^ 53) by (apply Z.pow_le_mono_r; lia).
        lia.
      - destruct (Z.le_gt_cases (Zdigits2 (Zpos p)) 63); [done|].
        assert (2 ^ 63 <= 2 ^ (Zdigits2 (Zpos p) - 1))
          by (apply Z.pow_le_mono_r; lia).
        lia. }
    unfold of_int, prec, emax, binary_normalize, binary_round, shl_align.
    rewrite fexp_eq.
    change (Zpos (digits2_pos p)) with (Zdigits2 (Zpos p)).
    set (d := Zdigits2 (Zpos p)) in *.
    replace (Z.max (d + 0 - 53) (-1074) - 0) with (d - 53) by lia.
    destruct (d - 53) as [|q|q] eqn:Hq; try lia. cbv beta iota zeta.
    destruct (binary_round_aux_value (Zpos p) 0 loc_Exact (Zpos p * 1) 1)
      as (mr & er & Hres & Hdr & Her & HQ);
      [done|apply located_exact; lia|fold d; lia..|].
    fold d in Her.
    exists mr, er. split; [done|]. split; [done|]. split; [lia|].
    assert (E : (inject_Z (Zpos p * 1) / inject_Z 1 * 2 ^ 0 == inject_Z (Zpos p))%Q).
    { rewrite Z.mul_1_r. change (2 ^ 0)%Q with 1%Q. change (inject_Z 1) with 1%Q.
      field. }
    by rewrite E in HQ.
Qed.

(** Four roundings, each of relative error at most [u = 2^-53], add up
    to a relative error of at most [8 u]. *)
Lemma four_roundings (r nn X P Nv R : Q) :
  (0 < r)%Q -> (0 < nn)%Q ->
  (Qabs (X - r) <= r * (1 # 9007199254740992))%Q ->
  (Qabs (P - X * 1000000) <= X * 1000000 * (1 # 9007199254740992))%Q ->
  (Qabs (Nv - nn) <= nn * (1 # 9007199254740992))%Q ->
  (Qabs (R - P / Nv) <= P / Nv * (1 # 9007199254740992))%Q ->
  (Qabs (R - r * 1000000 / nn) <= r * 1000000 / nn * (1 # 1125899906842624))%Q.
Proof.
  intros Hr Hn HX HP HN HR.
  apply Qabs_Qle_condition in HX as [HX1 HX2].
  apply Qabs_Qle_condition in HP as [HP1 HP2].
  apply Qabs_Qle_condition in HN as [HN1 HN2].
  apply Qabs_Qle_condition in HR as [HR1 HR2].
  assert (HNv : (0 < Nv)%Q) by lra.
  assert (HPpos : (0 < P)%Q) by lra.
  assert (Hc : (0 < / nn)%Q) by (by apply Qinv_lt_0_compat).
  assert (Hc' : (0 < / Nv)%Q) by (by apply Qinv_lt_0_compat).
  assert (Hcn : (nn * / nn == 1)%Q) by (apply Qmult_inv_r; lra).
  assert (Hcn' : (Nv * / Nv == 1)%Q) by (apply Qmult_inv_r; lra).
  unfold Qdiv in *. set (c := (/ nn)%Q) in *. set (c' := (/ Nv)%Q) in *.
  set (a := (r * 1000000)%Q) in *.
  assert (Hcc : (0 < c * c')%Q) by nra.
  assert (Hup : ((1 - (1 # 9007199254740992)) * c' <= c)%Q).
  { assert (E : (c * c' * (Nv - (1 - (1 # 9007199254740992)) * nn)
                 == c - (1 - (1 # 9007199254740992)) * c')%Q).
    { transitivity (c * (Nv * c') - (1 - (1 # 9007199254740992)) * c' * (nn * c))%Q;
        [ring|]. rewrite Hcn, Hcn'. ring. }
    assert (0 <= c * c' * (Nv - (1 - (1 # 9007199254740992)) * nn))%Q.
    { apply Qmult_le_0_compat; lra. }
    lra. }
  assert (Hdn : (c <= (1 + (1 # 9007199254740992)) * c')%Q).
  { assert (E : (c * c' * ((1 + (1 # 9007199254740992)) * nn - Nv)
                 == (1 + (1 # 9007199254740992)) * c' - c)%Q).
    { transitivity ((1 + (1 # 9007199254740992)) * c' * (nn * c) - c * (Nv * c'))%Q;
        [ring|]. rewrite Hcn, Hcn'. ring. }
    assert (0 <= c * c' * ((1 + (1 # 9007199254740992)) * nn - Nv))%Q.
    { apply Qmult_le_0_compat; lra. }
    lra. }
  set (Y := (P * c')%Q) in *. set (T := (a * c)%Q).
  assert (Ha : (0 < a)%Q) by (unfold a; lra).
  assert (HT : (0 < T)%Q) by (unfold T; nra).
  assert (HYup : ((1 - (1 # 9007199254740992)) * Y
                  <= T * ((1 + (1 # 9007199254740992)) * (1 + (1 # 9007199254740992))))%Q).
  { assert (P * ((1 - (1 # 9007199254740992)) * c') <= P * c)%Q
      by (apply Qmult_le_l; done).
    assert (P * c <= a * ((1 + (1 # 9007199254740992)) * (1 + (1 # 9007199254740992))) * c)%Q.
    { apply Qmult_le_compat_r; [|lra]. unfold a. lra. }
    unfold Y, T. lra. }
  assert (HYdn : (T * ((1 - (1 # 9007199254740992)) * (1 - (1 # 9007199254740992)))
                  <= (1 + (1 # 9007199254740992)) * Y)%Q).
  { assert (P * c <= P * ((1 + (1 # 9007199254740992)) * c'))%Q
      by (apply Qmult_le_l; done).
    assert (a * ((1 - (1 # 9007199254740992)) * (1 - (1 # 9007199254740992))) * c <= P * c)%Q.
    { apply Qmult_le_compat_r; [|lra]. unfold a. lra. }
    unfold Y, T. lra. }
  apply Qabs_Qle_condition. split; lra.
Qed.

End Float64Facts.

(** ** Strings *)

Module PyFacts.

Lemma append_cons (c : ascii) (s t : string) :
  String c s +:+ t = String c (s +:+ t).
Proof. reflexivity. Qed.

Lemma append_empty_l (s : string) : EmptyString +:+ s = s.
Proof. reflexivity. Qed.

Lemma append_empty_r (s : string) : s +:+ EmptyString = s.
Proof.
  induction s as [|c s IH]; [reflexivity|].
  rewrite append_cons. congruence.
Qed.

Lemma append_assoc (a b c : string) : (a +:+ b) +:+ c = a +:+ b +:+ c.
Proof.
  induction a as [|x a IH]; [reflexivity|].
  rewrite !append_cons. congruence.
Qed.

Lemma startswith_inv (p s : string) :
  startswith p s = true -> exists rest, s = p +:+ rest.
Proof.
  revert s. induction p as [|a p IH]; intros s H; simpl in *.
  - by exists s.
  - destruct s as [|b s]; [done|].
    apply andb_prop in H as [Hab Hps].
    apply Ascii.eqb_eq in Hab as ->.
    destruct (IH _ Hps) as [rest ->]. by exists rest.
Qed.

(** Once the split budget is spent, the rest of the string is the last
    piece, after what remains of the separator just matched. *)
Lemma split_go_spent (sep t rest cur : string) :
  split_go sep (Some O) (String.length t) cur (t +:+ rest) = [cur +:+ rest].
Proof.
  induction t as [|c t IH].
  - rewrite append_empty_l. destruct rest; cbn [split_go String.length].
    + by rewrite append_empty_r.
    + done.
  - rewrite append_cons. cbn [split_go String.length]. apply IH.
Qed.

(** [s.split(sep, 1)] has one piece, the string itself, or two pieces
    around an occurrence of the separator. *)
Lemma split_go_once (sep : string) (s cur : string) :
  sep <> EmptyString ->
  split_go sep (Some 1%nat) O cur s = [cur +:+ s]
  \/ exists a b, s = a +:+ sep +:+ b
                 /\ split_go sep (Some 1%nat) O cur s = [cur +:+ a; b].
Proof.
  intros Hsep. revert cur. induction s as [|c s IH]; intros cur.
  - left. cbn [split_go]. by rewrite append_empty_r.
  - cbn [split_go]. destruct (startswith sep (String c s)) eqn:Hst.
    + right. apply startswith_inv in Hst as [rest Hrest].
      destruct sep as [|c0 sep']; [done|].
      rewrite append_cons in Hrest. injection Hrest as -> ->.
      exists EmptyString, rest. split; [done|].
      cbn [fmap option_fmap option_map pred String.length].
      rewrite split_go_spent. by rewrite append_empty_r, append_empty_l.
    + destruct (IH (cur +:+ String c EmptyString)) as [H|(a & b & -> & H)].
      * left. rewrite H. by rewrite append_assoc, append_cons, append_empty_l.
      * right. exists (String c a), b. split; [done|].
        rewrite H. by rewrite append_assoc, append_cons, append_empty_l.
Qed.

Lemma split_once (sep s : string) :
  sep <> EmptyString ->
  split sep (Some 1%nat) s = [s]
  \/ exists a b, s = a +:+ sep +:+ b /\ split sep (Some 1%nat) s = [a; b].
Proof. intros H. apply (split_go_once sep s EmptyString H). Qed.

Lemma for_each_returns {A S} (body : S -> A -> result S) (s : S) (xs : list A) :
  (forall s x, x ∈ xs -> returns (body s x)) -> returns (for_each body s xs).
Proof.
  revert s. induction xs as [|x xs IH]; intros s H; simpl.
  - by exists s.
  - destruct (H s x) as [s' ->]; [left|]. simpl.
    apply IH. intros s0 y Hy. apply H. by right.
Qed.

Lemma getitem_returns {A} (l : list A) (i : nat) :
  (i < length l)%nat -> returns (getitem l i).
Proof.
  intros H. unfold getitem.
  destruct (lookup_lt_is_Some_2 l i H) as [a ->]. by exists a.
Qed.

Lemma getitem_raises {A} (l : list A) (i : nat) :
  (length l <= i)%nat -> getitem l i = Raise IndexError.
Proof. intros H. unfold getitem. by rewrite lookup_ge_None_2. Qed.

End PyFacts.

(** ** The classification engine *)

Module FilterGenesSpec.

Import FilterGenes.

Lemma elem_of_high_expression dea t g :
  g ∈ high_expression dea t <->
  exists r, r ∈ dea /\ gene r = g /\ Float64.ltb t (baseMean r) = true.
Proof.
  unfold high_expression. rewrite elem_of_list_to_set, list_elem_of_fmap.
  split.
  - intros (r & -> & Hr). apply list_elem_of_filter in Hr as [Hgt Hin]. eauto.
  - intros (r & Hin & <- & Hlt). exists r. split; [done|].
    apply list_elem_of_filter. done.
Qed.

Lemma isin_filter_sublist targets genes :
  isin_filter targets genes `sublist_of` targets.
Proof. apply sublist_filter. Qed.

Lemma elem_of_isin_filter targets genes g :
  g ∈ isin_filter targets genes <-> g ∈ targets /\ g ∈ genes.
Proof. unfold isin_filter. rewrite list_elem_of_filter. tauto. Qed.

Lemma isin_filter_occurrences targets genes g :
  filter (eq g) (isin_filter targets genes) =
  if decide (g ∈ genes) then filter (eq g) targets else [].
Proof.
  unfold isin_filter. rewrite list_filter_filter.
  induction targets as [|h l IH]; [by case_decide|].
  rewrite !filter_cons, IH.
  repeat case_decide; naive_solver.
Qed.

(** C3: the target set is the set of the genes of the second list; a
    gene that is only in the first list is no target, and the first
    list has no part in the four sets computed from the target set. *)
Theorem all_targets_is_second_list :
  forall (U : gset string) dea (targets1 targets2 : list string) thr,
    all_targets (classify U dea targets1 targets2 thr) = list_to_set targets2
    /\ (forall g, g ∈ all_targets (classify U dea targets1 targets2 thr)
                  <-> g ∈ targets2)
    /\ (forall g, g ∈ targets1 -> g ∉ targets2 ->
                  g ∉ all_targets (classify U dea targets1 targets2 thr))
    /\ (forall targets1',
           let c := classify U dea targets1 targets2 thr in
           let c' := classify U dea targets1' targets2 thr in
           all_targets c' = all_targets c
           /\ all_no_targets c' = all_no_targets c
           /\ all_no_targets_mm10 c' = all_no_targets_mm10 c
           /\ high_expression_no_targets c' = high_expression_no_targets c).
Proof.
  intros U dea t1 t2 thr. simpl. split; [done|]. split; [|split].
  - intros g. apply elem_of_list_to_set.
  - intros g _ Hn. by rewrite elem_of_list_to_set.
  - done.
Qed.

(** C4: a gene is highly expressed exactly when one of its rows has a
    [baseMean] strictly above the threshold; a gene whose rows all equal
    the threshold is left out; and the outcome on the table
    (A,50), (B,150), (C,300) with threshold 100 and second list [B, X]. *)
Theorem high_expression_genes_strict :
  (forall dea t g,
      g ∈ high_expression dea t <->
      exists r, r ∈ dea /\ gene r = g /\ Float64.ltb t (baseMean r) = true)
  /\ (forall dea t g,
         (forall r, r ∈ dea -> gene r = g -> SFeqb (baseMean r) t = true) ->
         g ∉ high_expression dea t)
  /\ (forall (U : gset string) (targets1 : list string),
         let dea := [ {| gene := "A"; baseMean := Float64.of_int 50 |};
                      {| gene := "B"; baseMean := Float64.of_int 150 |};
                      {| gene := "C"; baseMean := Float64.of_int 300 |} ] in
         let c := classify U dea targets1 ["B"; "X"] (Float64.of_int 100) in
         high_expression_genes c = {[ "B"; "C" ]}
         /\ all_targets c = {[ "B"; "X" ]}
         /\ filtered_targets2 c = ["B"]
         /\ all_no_targets c = {[ "A"; "C" ]}).
Proof.
  split; [|split].
  - apply elem_of_high_expression.
  - intros dea t g Heq Hin.
    apply elem_of_high_expression in Hin as (r & Hr & Hg & Hlt).
    specialize (Heq r Hr Hg).
    apply Float64Facts.ltb_eqb_false in Heq. congruence.
  - intros U t1. simpl.
    split; [|split; [|split]]; vm_compute; reflexivity.
Qed.

(** C5: what is left of a universe after the targets are taken out has
    no gene in common with the targets, for every universe and every
    target list; so for both non-target sets of the script. *)
Theorem no_targets_disjoint_from_targets :
  forall (U : gset string) dea (targets1 targets2 : list string) thr,
    let c := classify U dea targets1 targets2 thr in
    all_no_targets_mm10 c = U ∖ all_targets c
    /\ all_no_targets c = all_genes c ∖ all_targets c
    /\ all_no_targets_mm10 c ∩ all_targets c = ∅
    /\ all_no_targets c ∩ all_targets c = ∅
    /\ high_expression_no_targets c ∩ all_targets c = ∅.
Proof. intros U dea t1 t2 thr. simpl. set_solver. Qed.

(** C6: raising the threshold can only shrink the set of highly
    expressed genes. *)
Theorem high_expression_antitone :
  forall dea (t1 t2 : Float64.float),
    Float64.ltb t1 t2 = true ->
    high_expression dea t2 ⊆ high_expression dea t1.
Proof.
  intros dea t1 t2 Hlt g. rewrite !elem_of_high_expression.
  intros (r & Hr & Hg & Hgt). exists r. repeat split; try done.
  by apply Float64Facts.ltb_trans with t2.
Qed.

Lemma high_expression_antitone_witness :
  Float64.ltb (Float64.of_int 100) (Float64.of_int 200) = true
  /\ high_expression [ {| gene := "A"; baseMean := Float64.of_int 150 |};
                       {| gene := "B"; baseMean := Float64.of_int 250 |} ]
                     (Float64.of_int 200)
     ⊆ high_expression [ {| gene := "A"; baseMean := Float64.of_int 150 |};
                         {| gene := "B"; baseMean := Float64.of_int 250 |} ]
                       (Float64.of_int 100).
Proof.
  split; [reflexivity|].
  apply (high_expression_antitone _ (Float64.of_int 100) (Float64.of_int 200)).
  reflexivity.
Defined.

(** C7: each filtered target list is a subsequence of its target list
    that holds exactly the entries found among the highly expressed
    genes, each as often as in the original. *)
Theorem filtered_targets_subsequence :
  forall (U : gset string) dea (targets1 targets2 : list string) thr,
    let c := classify U dea targets1 targets2 thr in
    (filtered_targets1 c `sublist_of` targets1
     /\ (forall g, g ∈ filtered_targets1 c
                   <-> g ∈ targets1 /\ g ∈ high_expression_genes c)
     /\ (forall g, filter (eq g) (filtered_targets1 c) =
                   if decide (g ∈ high_expression_genes c)
                   then filter (eq g) targets1 else []))
    /\ (filtered_targets2 c `sublist_of` targets2
        /\ (forall g, g ∈ filtered_targets2 c
                      <-> g ∈ targets2 /\ g ∈ high_expression_genes c)
        /\ (forall g, filter (eq g) (filtered_targets2 c) =
                      if decide (g ∈ high_expression_genes c)
                      then filter (eq g) targets2 else [])).
Proof.
  intros U dea t1 t2 thr. simpl.
  split; (split; [apply isin_filter_sublist|]);
    (split; [intros g; apply elem_of_isin_filter
            |intros g; apply isin_filter_occurrences]).
Qed.

End FilterGenesSpec.

(** ** The annotation parser *)

Module GtfSpec.
Import FilterGenes PyFacts Examples.

Lemma parse_attr_returns d attr : returns (parse_attr d attr).
Proof.
  unfold parse_attr, parse_pair. case_decide; [by eexists|].
  destruct (split _ _ _) as [|a [|b [|c l]]]; simpl; by eexists.
Qed.

(** A segment with no space-and-quote separator in it leaves the
    dictionary as it was. *)
Lemma parse_attr_malformed d attr :
  (forall a b, strip attr <> a +:+ (" " +:+ dquote) +:+ b) ->
  parse_attr d attr = Return d.
Proof.
  intros H. unfold parse_attr, parse_pair. case_decide; [done|].
  destruct (split_once (" " +:+ dquote) (strip attr))
    as [->|(a & b & Hab & _)]; [done|done|].
  by destruct (H a b).
Qed.

Lemma process_line_returns genes line :
  (startswith "#" line = false ->
   (9 <= length (split tab None (strip line)))%nat) ->
  returns (process_line genes line).
Proof.
  intros H. unfold process_line.
  destruct (startswith "#" line); [by eexists|].
  specialize (H eq_refl).
  destruct (getitem_returns (split tab None (strip line)) 2) as [f2 ->]; [lia|].
  simpl. case_decide; [|by eexists].
  destruct (getitem_returns (split tab None (strip line)) 8) as [f8 ->]; [lia|].
  simpl.
  destruct (for_each_returns parse_attr ∅ (split ";" None f8)) as [d ->].
  { intros; apply parse_attr_returns. }
  simpl. case_decide; by eexists.
Qed.

(** C10, counterexample: every line of this stream has nine
    tab-delimited fields, yet the ninth is lost when the line is
    stripped and [fields[8]] raises. *)
Lemma nine_raw_fields_still_fail :
  startswith "#" blank_attributes_line = false
  /\ length (split tab None blank_attributes_line) = 9%nat
  /\ get_all_genes_from_gtf [blank_attributes_line] = Raise IndexError.
Proof. vm_compute. done. Qed.

(** A non-comment line that, once stripped, has fewer than three
    fields, or fewer than nine with [gene] as the third, raises. *)
Lemma process_line_short genes line :
  startswith "#" line = false ->
  (length (split tab None (strip line)) < 3)%nat
  \/ (split tab None (strip line) !! 2%nat = Some "gene"
      /\ (length (split tab None (strip line)) < 9)%nat) ->
  process_line genes line = Raise IndexError.
Proof.
  intros Hc H. unfold process_line. rewrite Hc.
  destruct H as [H|[H2 H8]].
  - by rewrite getitem_raises by lia.
  - unfold getitem at 1. rewrite H2. cbn [bind].
    rewrite decide_True by done. by rewrite getitem_raises by lia.
Qed.

(** C10, amended: when every non-comment line, once stripped, has at
    least nine tab-delimited fields, the parser returns a gene set; no
    attribute segment makes it raise, and a segment without the
    space-and-quote separator is passed over; a stripped line with too
    few fields raises [IndexError], as the line of three fields and the
    blank line do. *)
Theorem get_all_genes_from_gtf_total :
  forall lines : list string,
    (forall line, line ∈ lines -> startswith "#" line = false ->
                  (9 <= length (split tab None (strip line)))%nat) ->
    returns (get_all_genes_from_gtf lines)
    /\ (forall d attr, returns (parse_attr d attr))
    /\ (forall d attr,
           (forall a b, strip attr <> a +:+ (" " +:+ dquote) +:+ b) ->
           parse_attr d attr = Return d)
    /\ (forall genes line,
           startswith "#" line = false ->
           (length (split tab None (strip line)) < 3)%nat
           \/ (split tab None (strip line) !! 2%nat = Some "gene"
               /\ (length (split tab None (strip line)) < 9)%nat) ->
           process_line genes line = Raise IndexError)
    /\ get_all_genes_from_gtf [short_line] = Raise IndexError
    /\ get_all_genes_from_gtf [newline] = Raise IndexError.
Proof.
  intros lines H. split; [|split; [|split; [|split; [|split]]]].
  - apply for_each_returns. intros genes line Hin.
    apply process_line_returns. by apply H.
  - apply parse_attr_returns.
  - apply parse_attr_malformed.
  - apply process_line_short.
  - by vm_compute.
  - by vm_compute.
Qed.

Lemma get_all_genes_from_gtf_total_witness :
  returns (get_all_genes_from_gtf
             ["#comment"; gene_line "protein_coding" "A";
              gene_line "lincRNA" "D"]).
Proof.
  apply (get_all_genes_from_gtf_total
           ["#comment"; gene_line "protein_coding" "A";
            gene_line "lincRNA" "D"]).
  intros line Hin Hc.
  apply elem_of_cons in Hin as [->|Hin]; [discriminate Hc|].
  apply elem_of_cons in Hin as [->|Hin]; [vm_compute; lia|].
  apply elem_of_cons in Hin as [->|Hin]; [vm_compute; lia|].
  by apply elem_of_nil in Hin.
Defined.

End GtfSpec.

(** ** Read counting *)

Module CountReadsSpec.

Import Os CountReads Float64Facts Examples.
Local Open Scope Z_scope.

(** Division of a count by a total of zero reads. *)
Lemma rpm_zero_total (raw : Z) :
  rpm raw 0 =
  if raw =? 0 then Float64.nan else S754_infinity (raw <? 0).
Proof.
  unfold rpm, Float64.div, Float64.mul, Float64.prec, Float64.emax.
  change (Float64.of_int 0) with (S754_zero false).
  destruct (Z.eqb_spec raw 0) as [->|Hne]; [done|].
  destruct (mul_1e6_nonzero _ _ (of_int_nonzero raw Hne))
    as [->|(m & e & -> & _)]; simpl; by rewrite xorb_false_r.
Qed.

Lemma rpm_zero_count (n : Z) :
  0 < n < 2 ^ 63 -> rpm 0 n = S754_zero false.
Proof.
  intros Hn. destruct (of_int_approx n Hn) as (m & e & Hm & _).
  unfold rpm. by rewrite Hm.
Qed.

(** Reads per million: on [int64] counts and totals the computed value
    is within a relative error of [2^-50] of the exact quotient. *)
Lemma rpm_value (raw n : Z) :
  0 < raw < 2 ^ 63 -> 0 < n < 2 ^ 63 ->
  exists m e,
    rpm raw n = S754_finite false m e
    /\ Zdigits2 (Zpos m) = 53
    /\ (Qabs (inject_Z (Zpos m) * 2 ^ e
              - inject_Z raw * 1000000 / inject_Z n)
        <= inject_Z raw * 1000000 / inject_Z n * (1 # 1125899906842624))%Q.
Proof.
  intros Hraw Hn.
  destruct (of_int_approx raw Hraw) as (mx & ex & Hx & Hdx & Hex & Hvx).
  destruct (of_int_approx n Hn) as (mn & en & Hnn & Hdn & Hen & Hvn).
  unfold rpm, Float64.div, Float64.mul, Float64.prec, Float64.emax.
  rewrite Hx, Hnn. unfold Float64.f1e6.
  destruct (mul_value mx 8589934592000000 ex (-33) Hdx eq_refl)
    as (mp & ep & -> & Hdp & Hep & HP); [lia..|].
  destruct (div_value mp mn ep en Hdp Hdn)
    as (mr & er & -> & Hdr & Her & HR); [lia..|].
  exists mr, er. split; [done|]. split; [done|].
  assert (H6 : (inject_Z 8589934592000000 * 2 ^ (-33) == 1000000)%Q) by done.
  rewrite H6 in HP.
  apply (four_roundings (inject_Z raw) (inject_Z n)
           (inject_Z (Zpos mx) * 2 ^ ex) (inject_Z (Zpos mp) * 2 ^ ep)
           (inject_Z (Zpos mn) * 2 ^ en)); try done.
  - change 0%Q with (inject_Z 0). rewrite <- Zlt_Qlt. lia.
  - change 0%Q with (inject_Z 0). rewrite <- Zlt_Qlt. lia.
Qed.

(** The same for every count from zero on, through the rational that
    the result denotes. *)
Lemma rpm_to_Q (raw n : Z) :
  0 <= raw < 2 ^ 63 -> 0 < n < 2 ^ 63 ->
  exists q,
    Float64.to_Q (rpm raw n) = Some q
    /\ (0 <= q)%Q
    /\ (Qabs (q - inject_Z raw * 1000000 / inject_Z n)
        <= inject_Z raw * 1000000 / inject_Z n * (1 # 1125899906842624))%Q.
Proof.
  intros Hraw Hn. destruct (Z.eq_dec raw 0) as [->|Hne].
  - rewrite rpm_zero_count by done. exists 0%Q. split; [done|].
    split; [done|].
    assert (E : (inject_Z 0 * 1000000 / inject_Z n == 0)%Q)
      by (unfold Qdiv; ring).
    rewrite E. done.
  - destruct (rpm_value raw n) as (m & e & -> & _ & Hq); [lia|done|].
    exists (1 * inject_Z (Zpos m) * 2 ^ e)%Q. split; [done|]. split.
    + pose proof (Qpow2_pos e).
      assert (0 < inject_Z (Zpos m))%Q by done.
      rewrite Qmult_1_l. apply Qlt_le_weak. by apply Qmult_lt_0_compat.
    + by rewrite Qmult_1_l.
Qed.

Lemma normalize_lookup df n i r :
  df !! i = Some r ->
  normalize df n !! i = Some {| raw := r; count := rpm (raw_count r) n |}.
Proof. intros H. unfold normalize. by rewrite list_lookup_fmap, H. Qed.

Lemma normalize_length df n : length (normalize df n) = length df.
Proof. unfold normalize. by rewrite length_fmap. Qed.

(** *** The quality control checks *)

Lemma quality_control_run df n w :
  quality_control df n w =
  ({| disk := disk w; tables := tables w;
      log := log w ++ qc_records df n |}, Return tt).
Proof.
  destruct w as [d t l].
  unfold quality_control, qc_records, mbind, logger, ret.
  destruct (too_many_zero df), (n <? 1000000); simpl;
    rewrite <- ?app_assoc, ?app_nil_r; done.
Qed.

Lemma zero_peaks_bounds df :
  0 <= zero_peaks df <= Z.of_nat (length df).
Proof.
  unfold zero_peaks.
  pose proof (length_filter (fun r => raw_count r = 0) df). lia.
Qed.

Lemma too_many_zero_spec df :
  df <> [] -> Z.of_nat (length df) < 2 ^ 53 ->
  too_many_zero df = true <-> Z.of_nat (length df) < 2 * zero_peaks df.
Proof.
  intros Hne Hlen. pose proof (zero_peaks_bounds df).
  unfold too_many_zero, Float64.gtb, Float64.ltb, Float64.mul,
    Float64.prec, Float64.emax.
  apply gt_half_spec; [lia|]. destruct df; [done|]. simpl length in *. lia.
Qed.

Lemma fraction_above_half (z L : Z) :
  0 < L -> (1 # 2 < inject_Z z / inject_Z L)%Q <-> L < 2 * z.
Proof.
  intros HL.
  assert (HLq : (0 < inject_Z L)%Q).
  { change 0%Q with (inject_Z 0). by rewrite <- Zlt_Qlt. }
  assert (Hc : (0 < / inject_Z L)%Q) by (by apply Qinv_lt_0_compat).
  assert (Hi : (inject_Z L * / inject_Z L == 1)%Q).
  { apply Qmult_inv_r. intros E. rewrite E in HLq. by apply Qlt_irrefl in HLq. }
  rewrite (Zlt_Qlt L), inject_Z_mult. change (inject_Z 2) with 2%Q.
  unfold Qdiv. set (c := (/ inject_Z L)%Q) in *.
  set (a := inject_Z L) in *. set (b := inject_Z z).
  split; intros; nra.
Qed.

(** *** The [try] block when coverage, reading and writing go well *)

Lemma try_body_run E output_file P total_reads w df :
  coverage_outcome E = Exited 0 ->
  counts_tmp P ∉ dirs (disk w) ->
  counts_table E = Return df ->
  to_csv_error E = None ->
  exists w',
    try_body E output_file P total_reads w = (w', Return tt)
    /\ tables w' = <[ output_file := normalize df total_reads ]> (tables w)
    /\ log w' = log w
                ++ [(INFO, CountingReadsInPeaks);
                    (INFO, NormalizedCountsSaved output_file);
                    (INFO, MeanRawCount); (INFO, MeanNormalizedCount)]
                ++ qc_records df total_reads.
Proof.
  intros Hcov Hdir Htab Hcsv. destruct w as [[fs ds] t l]. simpl in Hdir.
  unfold try_body, mbind, logger, run_redirect, read_csv, to_csv.
  rewrite Hcov, Htab, Hcsv. simpl.
  rewrite decide_False by done. simpl.
  rewrite decide_True by set_solver. simpl.
  rewrite quality_control_run. simpl.
  eexists. split; [done|]. split; [done|].
  simpl. by rewrite <- !app_assoc.
Qed.

(** *** The [finally] block *)

Lemma remove_if_exists_run p w :
  p ∉ dirs (disk w) ->
  remove_if_exists p w =
  ({| disk := {| files := files (disk w) ∖ {[ p ]}; dirs := dirs (disk w) |};
      tables := tables w; log := log w |}, Return tt).
Proof.
  intros Hp. destruct w as [[fs ds] t l]. simpl in *.
  unfold remove_if_exists, exists_, lift_fs, remove. simpl.
  case_bool_decide as Hin.
  - rewrite decide_True by set_solver. done.
  - do 3 f_equal. apply set_eq. set_solver.
Qed.

Lemma cleanup_run P w :
  counts_tmp P ∉ dirs (disk w) -> genome_file P ∉ dirs (disk w) ->
  sorted_peaks P ∉ dirs (disk w) ->
  exists w',
    cleanup P w = (w', Return tt)
    /\ files (disk w') =
       files (disk w) ∖ {[ counts_tmp P; genome_file P; sorted_peaks P ]}
    /\ tables w' = tables w /\ log w' = log w.
Proof.
  intros Hc Hg Hs. unfold cleanup, mbind.
  rewrite remove_if_exists_run by done.
  rewrite remove_if_exists_run by done.
  rewrite remove_if_exists_run by done.
  unfold try_pass, lift_fs. simpl.
  destruct (rmdir _ _) as [d|e] eqn:Hrm.
  - unfold rmdir in Hrm. case_decide; [|done]. injection Hrm as <-. simpl.
    eexists. split; [done|]. simpl. split; [|done].
    apply set_eq. set_solver.
  - eexists. split; [done|]. simpl. split; [|done].
    apply set_eq. set_solver.
Qed.

Lemma try_body_dirs E output_file P total_reads w :
  dirs (disk (try_body E output_file P total_reads w).1) = dirs (disk w).
Proof.
  destruct w as [[fs ds] t l].
  unfold try_body, mbind, logger, run_redirect, read_csv, to_csv. simpl.
  destruct (coverage_outcome E) as [|status]; [done|].
  case_decide; [done|]. case_decide; [|done]. simpl.
  rewrite decide_True by set_solver.
  destruct (counts_table E) as [df|e]; [|done].
  destruct (to_csv_error E); [done|]. simpl.
  by rewrite quality_control_run.
Qed.

(** Once the [try] block is entered, none of the three temporary files
    is left, however the block ends. *)
Lemma try_finally_removes E output_file P total_reads w :
  counts_tmp P ∉ dirs (disk w) -> genome_file P ∉ dirs (disk w) ->
  sorted_peaks P ∉ dirs (disk w) ->
  let r := try_finally (try_body E output_file P total_reads) (cleanup P) w in
  (counts_tmp P ∉ files (disk r.1)) /\ (genome_file P ∉ files (disk r.1))
  /\ (sorted_peaks P ∉ files (disk r.1))
  /\ r.2 = (try_body E output_file P total_reads w).2.
Proof.
  intros Hc Hg Hs. unfold try_finally.
  pose proof (try_body_dirs E output_file P total_reads w) as Hd.
  destruct (try_body E output_file P total_reads w) as [w1 r1]. simpl in Hd.
  destruct (cleanup_run P w1) as (w2 & -> & Hf & _); rewrite ?Hd; try done.
  simpl. rewrite Hf. set_solver.
Qed.

(** C1, counterexample: with no mapped read the run returns normally and
    writes a table with an infinite count and a NaN. *)
Lemma zero_total_reads_returns :
  (count_reads (tools 0 0 [peak1; peak0]) "out/s1.tsv" empty_world).2
  = Return tt
  /\ tables (count_reads (tools 0 0 [peak1; peak0]) "out/s1.tsv"
                         empty_world).1
     !! "out/s1.tsv"
     = Some [ {| raw := peak1; count := Float64.pinf |};
              {| raw := peak0; count := Float64.nan |} ].
Proof. split; vm_compute; reflexivity. Qed.

(** C1, amended: with [total_reads = 0] the normalization raises
    nothing. When coverage, reading and writing succeed the [try] block
    returns, the table written holds, row by row, NaN for a zero count
    and an infinity of the sign of the count otherwise, and the records
    logged are the four at level INFO, then the warning for zero
    coverage when that check fires, then the warning for a low number
    of mapped reads, which is always there. *)
Theorem normalize_zero_total_reads :
  forall E output_file P w df,
    coverage_outcome E = Exited 0 ->
    counts_tmp P ∉ dirs (disk w) ->
    counts_table E = Return df ->
    to_csv_error E = None ->
    exists w',
      try_body E output_file P 0 w = (w', Return tt)
      /\ tables w' !! output_file = Some (normalize df 0)
      /\ (forall i r,
             df !! i = Some r ->
             normalize df 0 !! i =
             Some {| raw := r;
                     count := if raw_count r =? 0 then Float64.nan
                              else S754_infinity (raw_count r <? 0) |})
      /\ (WARNING, LowMappedReads 0) ∈ log w'
      /\ log w'
         = log w
           ++ [(INFO, CountingReadsInPeaks);
               (INFO, NormalizedCountsSaved output_file);
               (INFO, MeanRawCount); (INFO, MeanNormalizedCount)]
           ++ (if too_many_zero df
               then [(WARNING,
                      MoreThanHalfZero
                        (Z.of_nat (length (filter (fun r => raw_count r = 0)
                                                  df)))
                        (Z.of_nat (length df)))]
               else [])
           ++ [(WARNING, LowMappedReads 0)].
Proof.
  intros E output_file P w df Hcov Hdir Htab Hcsv.
  destruct (try_body_run E output_file P 0 w df Hcov Hdir Htab Hcsv)
    as (w' & Hrun & Ht & Hl).
  exists w'. split; [done|]. split; [|split; [|split]].
  - rewrite Ht. apply lookup_insert_eq.
  - intros i r Hi. rewrite (normalize_lookup df 0 i r Hi).
    by rewrite rpm_zero_total.
  - rewrite Hl. unfold qc_records. simpl (0 <? 1000000).
    rewrite !elem_of_app. right. right. right. apply list_elem_of_singleton. done.
  - rewrite Hl. unfold qc_records, zero_peaks. simpl (0 <? 1000000). done.
Qed.

Lemma normalize_zero_total_reads_witness :
  exists w',
    try_body (tools 0 0 [peak0]) "out/s1.tsv" (temp_paths "out/s1.tsv") 0
             empty_world = (w', Return tt)
    /\ tables w' !! "out/s1.tsv" = Some (normalize [peak0] 0)
    /\ (forall i r,
           [peak0] !! i = Some r ->
           normalize [peak0] 0 !! i =
           Some {| raw := r;
                   count := if raw_count r =? 0 then Float64.nan
                            else S754_infinity (raw_count r <? 0) |})
    /\ (WARNING, LowMappedReads 0) ∈ log w'
    /\ log w'
       = log empty_world
         ++ [(INFO, CountingReadsInPeaks);
             (INFO, NormalizedCountsSaved "out/s1.tsv");
             (INFO, MeanRawCount); (INFO, MeanNormalizedCount)]
         ++ (if too_many_zero [peak0]
             then [(WARNING,
                    MoreThanHalfZero
                      (Z.of_nat (length (filter (fun r => raw_count r = 0)
                                                [peak0])))
                      (Z.of_nat (length [peak0])))]
             else [])
         ++ [(WARNING, LowMappedReads 0)].
Proof.
  apply (normalize_zero_total_reads (tools 0 0 [peak0]) "out/s1.tsv"
           (temp_paths "out/s1.tsv") empty_world [peak0]).
  - reflexivity.
  - simpl. apply not_elem_of_empty.
  - reflexivity.
  - reflexivity.
Defined.

(** A failure of the sort command, whatever the output path and the
    files already there: the call raises without entering the [try]
    block, and both files written so far stay. *)
Lemma sort_failure_skips_cleanup E output_file w n status :
  let P := temp_paths output_file in
  dirname output_file <> EmptyString ->
  dirname output_file ∉ files (disk w) ->
  temp_dir P ∉ files (disk w) ->
  genome_file P ∉ {[ temp_dir P; dirname output_file ]} ∪ dirs (disk w) ->
  sorted_peaks P ∉ {[ temp_dir P; dirname output_file ]} ∪ dirs (disk w) ->
  samtools_count E = Return n ->
  genome_outcome E = Exited 0 ->
  sort_outcome E = Exited status -> status <> 0 ->
  (count_reads E output_file w).2 = Raise CalledProcessError
  /\ genome_file P ∈ files (disk (count_reads E output_file w).1)
  /\ sorted_peaks P ∈ files (disk (count_reads E output_file w).1)
  /\ (INFO, CountingReadsInPeaks) ∉
     drop (length (log w)) (log (count_reads E output_file w).1).
Proof.
  intros P Hout Hof Htf Hg Hs Hsam Hgen Hsort Hst.
  destruct w as [[fs ds] t l]. simpl in *.
  unfold count_reads, mbind, lift_fs, logger, lift_result, run_redirect, makedirs.
  fold P. simpl.
  rewrite decide_False by (intros [?|?]; done). simpl.
  assert (Htmp : temp_dir P <> EmptyString).
  { unfold P, temp_paths, temp_dir, join. simpl.
    rewrite decide_False by done.
    destruct (endswith_slash (dirname output_file));
      destruct (dirname output_file); done. }
  rewrite decide_False by (intros [?|?]; done). simpl.
  rewrite Hsam, Hgen, Hsort. simpl.
  rewrite decide_False by set_solver. simpl.
  rewrite decide_False by set_solver. simpl.
  rewrite decide_False by done. simpl.
  split; [done|]. split; [set_solver|]. split; [set_solver|].
  rewrite <- !app_assoc, drop_app_length. simpl.
  rewrite !elem_of_cons, elem_of_nil. naive_solver.
Qed.

(** C2: when [bedtools sort] exits with a non-zero status the call
    raises before the [try] block is entered, and the genome file and
    the sorted-peaks file stay in the temporary directory, which stays
    too. *)
Theorem sort_failure_leaves_temp_files :
  (count_reads (tools 5000000 1 [peak1]) "out/s1.tsv" empty_world).2
  = Raise CalledProcessError
  /\ files (disk (count_reads (tools 5000000 1 [peak1]) "out/s1.tsv"
                              empty_world).1)
     = {[ "out/tmp/s1.tsv.genome"; "out/tmp/s1.tsv.sorted.tmp" ]}
  /\ dirs (disk (count_reads (tools 5000000 1 [peak1]) "out/s1.tsv"
                             empty_world).1)
     = {[ "out"; "out/tmp" ]}.
Proof. split; [|split]; vm_compute; reflexivity. Qed.

(** C8: every row keeps its columns and gets the count
    [raw_count * 1e6 / total_reads], computed in binary64 from the raw
    count and the total alone. For [int64] counts and totals the value is
    within a relative error of [2^-50] of the exact quotient; 10 reads of
    5,000,000 give 2.0. *)
Theorem normalize_reads_per_million :
  forall (df : list raw_row) (n : Z),
    0 < n < 2 ^ 63 ->
    (forall r, r ∈ df -> 0 <= raw_count r < 2 ^ 63) ->
    length (normalize df n) = length df
    /\ (forall i r,
           df !! i = Some r ->
           exists c q,
             normalize df n !! i = Some {| raw := r; count := c |}
             /\ c = rpm (raw_count r) n
             /\ Float64.to_Q c = Some q
             /\ (0 <= q)%Q
             /\ (Qabs (q - inject_Z (raw_count r) * 1000000 / inject_Z n)
                 <= inject_Z (raw_count r) * 1000000 / inject_Z n
                    * (1 # 1125899906842624))%Q)
    /\ rpm 10 5000000 = Float64.of_int 2
    /\ normalize [peak1] 5000000
       = [ {| raw := peak1; count := Float64.of_int 2 |} ]
    /\ (exists q, Float64.to_Q (Float64.of_int 2) = Some q /\ (q == 2)%Q).
Proof.
  intros df n Hn Hdf. split; [apply normalize_length|]. split; [|split; [|split]].
  - intros i r Hi.
    destruct (rpm_to_Q (raw_count r) n) as (q & Hq & Hq0 & Herr);
      [apply Hdf; by eapply list_elem_of_lookup_2|done|].
    exists (rpm (raw_count r) n), q.
    split; [by apply normalize_lookup|]. done.
  - by vm_compute.
  - by vm_compute.
  - eexists. split; [reflexivity|]. by vm_compute.
Qed.

Lemma normalize_reads_per_million_witness :
  length (normalize [peak1] 5000000) = length [peak1]
  /\ (forall i r,
         [peak1] !! i = Some r ->
         exists c q,
           normalize [peak1] 5000000 !! i = Some {| raw := r; count := c |}
           /\ c = rpm (raw_count r) 5000000
           /\ Float64.to_Q c = Some q
           /\ (0 <= q)%Q
           /\ (Qabs (q - inject_Z (raw_count r) * 1000000 / inject_Z 5000000)
               <= inject_Z (raw_count r) * 1000000 / inject_Z 5000000
                  * (1 # 1125899906842624))%Q)
  /\ rpm 10 5000000 = Float64.of_int 2
  /\ normalize [peak1] 5000000
     = [ {| raw := peak1; count := Float64.of_int 2 |} ]
  /\ (exists q, Float64.to_Q (Float64.of_int 2) = Some q /\ (q == 2)%Q).
Proof.
  apply (normalize_reads_per_million [peak1] 5000000).
  - done.
  - intros r Hr. apply list_elem_of_singleton in Hr as ->. done.
Defined.

(** C9: on a non-empty table the warning for zero coverage is logged
    exactly when the number of rows with [raw_count = 0], divided by the
    number of rows, is above one half, and it then carries these two
    numbers; at one half exactly it is not logged. *)
Theorem zero_coverage_warning_iff :
  forall (df : list raw_row) (total_reads : Z) (w : world),
    df <> [] ->
    Z.of_nat (length df) < 2 ^ 53 ->
    let zero_count :=
      Z.of_nat (length (filter (fun r => raw_count r = 0) df)) in
    let total := Z.of_nat (length df) in
    let fraction := (inject_Z zero_count / inject_Z total)%Q in
    zero_peaks df = zero_count
    /\ (too_many_zero df = true <-> (1 # 2 < fraction)%Q)
    /\ (exists new,
           quality_control df total_reads w
           = ({| disk := disk w; tables := tables w; log := log w ++ new |},
              Return tt)
           /\ ((WARNING, MoreThanHalfZero zero_count total) ∈ new
               <-> (1 # 2 < fraction)%Q)
           /\ (forall l z t, (l, MoreThanHalfZero z t) ∈ new ->
                             l = WARNING /\ z = zero_count /\ t = total
                             /\ (1 # 2 < fraction)%Q)
           /\ ((fraction == 1 # 2)%Q ->
               forall l z t, (l, MoreThanHalfZero z t) ∉ new)).
Proof.
  intros df n w Hne Hlen zero_count total fraction.
  assert (HL : 0 < Z.of_nat (length df)) by (destruct df; [done|simpl; lia]).
  assert (Hz : zero_peaks df = zero_count) by done.
  assert (Hiff : too_many_zero df = true <-> (1 # 2 < fraction)%Q).
  { rewrite too_many_zero_spec by done. rewrite Hz. symmetry.
    by apply fraction_above_half. }
  assert (Hin : forall l z t,
             (l, MoreThanHalfZero z t) ∈ qc_records df n
             <-> too_many_zero df = true
                 /\ l = WARNING /\ z = zero_count /\ t = total).
  { intros l z t. unfold qc_records. rewrite Hz. fold total.
    destruct (too_many_zero df), (n <? 1000000); simpl;
      rewrite ?elem_of_cons, ?elem_of_nil; naive_solver. }
  split; [done|]. split; [done|].
  exists (qc_records df n). rewrite quality_control_run. split; [done|].
  split; [|split].
  - rewrite Hin, <- Hiff. naive_solver.
  - intros l z t [Ht H]%Hin. apply Hiff in Ht. naive_solver.
  - intros Heq l z t [Ht _]%Hin. apply Hiff in Ht.
    rewrite Heq in Ht. by apply Qlt_irrefl in Ht.
Qed.

Lemma zero_coverage_warning_iff_witness :
  let df := [ peak0; peak1 ] in
  let zero_count :=
    Z.of_nat (length (filter (fun r => raw_count r = 0) df)) in
  let total := Z.of_nat (length df) in
  let fraction := (inject_Z zero_count / inject_Z total)%Q in
  zero_peaks df = zero_count
  /\ (too_many_zero df = true <-> (1 # 2 < fraction)%Q)
  /\ (exists new,
         quality_control df 5000000 empty_world
         = ({| disk := disk empty_world; tables := tables empty_world;
               log := log empty_world ++ new |}, Return tt)
         /\ ((WARNING, MoreThanHalfZero zero_count total) ∈ new
             <-> (1 # 2 < fraction)%Q)
         /\ (forall l z t, (l, MoreThanHalfZero z t) ∈ new ->
                           l = WARNING /\ z = zero_count /\ t = total
                           /\ (1 # 2 < fraction)%Q)
         /\ ((fraction == 1 # 2)%Q ->
             forall l z t, (l, MoreThanHalfZero z t) ∉ new)).
Proof.
  apply (zero_coverage_warning_iff [ peak0; peak1 ] 5000000 empty_world).
  - discriminate.
  - reflexivity.
Defined.

End CountReadsSpec.
